(** * QR Code Styling for Salesforce: the [qrCode] Lightning web component

    A shallow embedding of the component's value resolution, readiness gate,
    render scheduling and options building, with the properties its
    specification states about them.

    The component exists in successive iterations.  The current one (record
    field, URL parameter and provided value modes) is embedded at top level;
    the original [force-app/main/default/lwc/qrCode/qrCode.js] and the
    intermediate static-value iteration are embedded in the modules
    [Original] and [StaticValue], next to the places where they differ. *)

From Stdlib Require Import String Ascii List Bool Arith Lia.
From Stdlib Require Import Floats.PrimFloat.
From stdpp Require Import gmap strings.
Import ListNotations.

Local Open Scope string_scope.
Local Open Scope bool_scope.

(** ** JavaScript values *)

(** The scalars the component handles: configuration properties, record
    field values and URL parameters.  Numbers are IEEE 754 doubles. *)
Inductive JsValue : Type :=
| JUndefined
| JNull
| JBool (b : bool)
| JNum (x : float)
| JStr (s : string).

(** [x !== x], the JavaScript test for NaN. *)
Definition isNaN (x : float) : bool := negb (PrimFloat.eqb x x).

(** ToBoolean: [undefined], [null], [false], [0], [-0], [NaN] and the empty
    string are falsy; everything else is truthy. *)
Definition truthy (v : JsValue) : bool :=
  match v with
  | JUndefined | JNull => false
  | JBool b => b
  | JNum x => negb (PrimFloat.eqb x 0%float || isNaN x)
  | JStr s => negb (String.eqb s "")
  end.

(** [a || b] *)
Definition js_or (a b : JsValue) : JsValue := if truthy a then a else b.

(** A property that holds a string when it is set: [None] is [undefined]. *)
Definition truthy_str (o : option string) : bool :=
  match o with
  | Some s => negb (String.eqb s "")
  | None => false
  end.

(** [o || d] for a string property [o] and a string literal [d]. *)
Definition str_or (o : option string) (d : string) : string :=
  match o with
  | Some s => if String.eqb s "" then d else s
  | None => d
  end.

(** ** String built-ins *)

(** White space and line terminators that [String.prototype.trim] strips,
    in the ASCII range: TAB, LF, VT, FF, CR and space. *)
Definition isWhiteSpace (c : ascii) : bool :=
  match nat_of_ascii c with
  | 9 | 10 | 11 | 12 | 13 | 32 => true
  | _ => false
  end.

Fixpoint trimStart (s : string) : string :=
  match s with
  | EmptyString => EmptyString
  | String c s' => if isWhiteSpace c then trimStart s' else s
  end.

Fixpoint trimEnd (s : string) : string :=
  match s with
  | EmptyString => EmptyString
  | String c s' =>
      match trimEnd s' with
      | EmptyString => if isWhiteSpace c then EmptyString else String c EmptyString
      | t => String c t
      end
  end.

Definition trim (s : string) : string := trimEnd (trimStart s).

(** [String.prototype.toLowerCase] on the ASCII letters. *)
Definition lowerChar (c : ascii) : ascii :=
  let n := nat_of_ascii c in
  if ((65 <=? n)%nat && (n <=? 90)%nat)%bool then ascii_of_nat (n + 32) else c.

Fixpoint toLowerCase (s : string) : string :=
  match s with
  | EmptyString => EmptyString
  | String c s' => String (lowerChar c) (toLowerCase s')
  end.

Example trim_ex : trim "  Name	 " = "Name".
Proof. reflexivity. Qed.

Example lower_ex : toLowerCase "Extra-Rounded" = "extra-rounded".
Proof. reflexivity. Qed.

Example truthy_ex : truthy (JNum 0%float) = false /\ truthy (JNum 0.5%float) = true
  /\ truthy (JNum (-0)%float) = false /\ truthy (JNum nan) = false.
Proof. vm_compute. auto. Qed.

(** ** External collaborators *)

(** A record snapshot delivered by the record data provider: qualified
    field name to scalar value. *)
Abbreviation RecordSnapshot := (gmap string JsValue).

(** [getFieldValue(record, field)] of [lightning/uiRecordApi]: the value
    held at the field, [undefined] when the record does not hold it. *)
Definition getFieldValue (r : RecordSnapshot) (field : string) : JsValue :=
  default JUndefined (r !! field).

(** The error object a failed fetch delivers, by its message. *)
Definition JsError : Type := string.

(** The current page reference; [state] maps URL parameter names to values. *)
Record PageRef : Type := { state : option (gmap string JsValue) }.

(** [pageRef?.state?.[key]] *)
Definition pageRefState (pageRef : option PageRef) (key : string) : JsValue :=
  match pageRef with
  | None => JUndefined
  | Some p =>
      match state p with
      | None => JUndefined
      | Some st => default JUndefined (st !! key)
      end
  end.

(** ** The options object handed to the rendering library *)

Record StyleOptions : Type := { color : JsValue; type : JsValue }.
(** [background_color] is the [color] key of [backgroundOptions]. *)
Record BackgroundOptions : Type := { background_color : JsValue }.
Record QrOptions : Type := { errorCorrectionLevel : string }.
Record ImageOptions : Type := {
  crossOrigin : string;
  margin : JsValue;
  imageSize : JsValue;
  hideBackgroundDots : bool
}.

(** [image] and [imageOptions] are [None] when the key is not set. *)
Record Options : Type := {
  width : JsValue;
  height : JsValue;
  data : JsValue;
  dotsOptions : StyleOptions;
  backgroundOptions : BackgroundOptions;
  cornersSquareOptions : StyleOptions;
  cornersDotOptions : StyleOptions;
  qrOptions : QrOptions;
  image : option JsValue;
  imageOptions : option ImageOptions
}.

(** ** The component *)

(** The public ([@api]) properties.  Properties the code calls string
    methods on or splices into a field name are strings when set;
    the others are passed through or tested for truthiness only. *)
Record Config : Type := {
  recordId : option string;
  objectApiName : option string;
  qrCodeValueFieldApiName : option string;
  valueSource : option string;
  providedValue : JsValue;
  urlParamName : option string;
  showTitle : JsValue;
  titleFieldApiName : option string;
  titleStaticValue : JsValue;
  qrCodeHeight : JsValue;
  qrCodeWidth : JsValue;
  qrCodeDotsColor : JsValue;
  qrCodeDotsType : option string;
  backgroundColor : JsValue;
  cornersSquareStyle : JsValue;
  cornersDotStyle : JsValue;
  logoUrl : JsValue;
  logoImageSize : JsValue;
  logoImageMargin : JsValue;
  noQrValueMessage : JsValue
}.

(** The property initialisers of the class. *)
Definition defaultConfig : Config := {|
  recordId := None; objectApiName := None; qrCodeValueFieldApiName := None;
  valueSource := Some "Provided Value"; providedValue := JUndefined;
  urlParamName := Some "qrv";
  showTitle := JUndefined; titleFieldApiName := None; titleStaticValue := JUndefined;
  qrCodeHeight := JUndefined; qrCodeWidth := JUndefined; qrCodeDotsColor := JUndefined;
  qrCodeDotsType := Some "Rounded"; backgroundColor := JUndefined;
  cornersSquareStyle := JUndefined; cornersDotStyle := JUndefined;
  logoUrl := JUndefined; logoImageSize := JUndefined; logoImageMargin := JUndefined;
  noQrValueMessage := JUndefined
|}.

(** The component instance: its properties and private fields.
    [qrCodeInstance] is the handle of the rendered artifact. *)
Record Widget : Type := {
  config : Config;
  record : option RecordSnapshot;
  error : option JsError;
  urlParamValue : JsValue;
  qrCodeInstance : option nat;
  qrCodeLibLoaded : bool;
  domReady : bool;
  scriptLoadStarted : bool
}.

Definition newWidget (c : Config) : Widget := {|
  config := c; record := None; error := None; urlParamValue := JUndefined;
  qrCodeInstance := None; qrCodeLibLoaded := false; domReady := false;
  scriptLoadStarted := false
|}.

Definition set_config (c : Config) (t : Widget) : Widget :=
  {| config := c; record := record t; error := error t;
     urlParamValue := urlParamValue t; qrCodeInstance := qrCodeInstance t;
     qrCodeLibLoaded := qrCodeLibLoaded t; domReady := domReady t;
     scriptLoadStarted := scriptLoadStarted t |}.

Definition set_record (r : option RecordSnapshot) (e : option JsError) (t : Widget) : Widget :=
  {| config := config t; record := r; error := e;
     urlParamValue := urlParamValue t; qrCodeInstance := qrCodeInstance t;
     qrCodeLibLoaded := qrCodeLibLoaded t; domReady := domReady t;
     scriptLoadStarted := scriptLoadStarted t |}.

Definition set_urlParamValue (v : JsValue) (t : Widget) : Widget :=
  {| config := config t; record := record t; error := error t;
     urlParamValue := v; qrCodeInstance := qrCodeInstance t;
     qrCodeLibLoaded := qrCodeLibLoaded t; domReady := domReady t;
     scriptLoadStarted := scriptLoadStarted t |}.

Definition set_qrCodeInstance (h : option nat) (t : Widget) : Widget :=
  {| config := config t; record := record t; error := error t;
     urlParamValue := urlParamValue t; qrCodeInstance := h;
     qrCodeLibLoaded := qrCodeLibLoaded t; domReady := domReady t;
     scriptLoadStarted := scriptLoadStarted t |}.

Definition set_qrCodeLibLoaded (b : bool) (t : Widget) : Widget :=
  {| config := config t; record := record t; error := error t;
     urlParamValue := urlParamValue t; qrCodeInstance := qrCodeInstance t;
     qrCodeLibLoaded := b; domReady := domReady t;
     scriptLoadStarted := scriptLoadStarted t |}.

Definition set_domReady (b : bool) (t : Widget) : Widget :=
  {| config := config t; record := record t; error := error t;
     urlParamValue := urlParamValue t; qrCodeInstance := qrCodeInstance t;
     qrCodeLibLoaded := qrCodeLibLoaded t; domReady := b;
     scriptLoadStarted := scriptLoadStarted t |}.

Definition set_scriptLoadStarted (b : bool) (t : Widget) : Widget :=
  {| config := config t; record := record t; error := error t;
     urlParamValue := urlParamValue t; qrCodeInstance := qrCodeInstance t;
     qrCodeLibLoaded := qrCodeLibLoaded t; domReady := domReady t;
     scriptLoadStarted := b |}.

(** *** Mode helpers *)

(** [!!(this.recordId && this.objectApiName && this.qrCodeValueFieldApiName)] *)
Definition usesRecordField (c : Config) : bool :=
  truthy_str (recordId c) && truthy_str (objectApiName c)
  && truthy_str (qrCodeValueFieldApiName c).

(** [(this.urlParamName || 'qrv').trim()] *)
Definition effectiveUrlParamName (c : Config) : string :=
  trim (str_or (urlParamName c) "qrv").

(** [this.valueSource === 'URL Parameter'] *)
Definition isUrlParameterSource (c : Config) : bool :=
  match valueSource c with
  | Some s => String.eqb s "URL Parameter"
  | None => false
  end.

(** *** Utilities *)

(** [getQualifiedFieldName(fieldName)]; [None] is the [null] result. *)
Definition getQualifiedFieldName (c : Config) (fieldName : option string) : option string :=
  let field := trim (str_or fieldName "") in
  if String.eqb field "" then None
  else
    match objectApiName c with
    | Some o => if String.eqb o "" then None else Some (o ++ "." ++ field)
    | None => None
    end.

(** [fields]: the qualified title and value fields, nulls filtered out. *)
Definition fields (c : Config) : list string :=
  if negb (usesRecordField c) then []
  else
    omap id [ getQualifiedFieldName c (titleFieldApiName c);
              getQualifiedFieldName c (qrCodeValueFieldApiName c) ].

(** *** Computed values *)

Definition title (t : Widget) : JsValue :=
  let c := config t in
  if negb (truthy (showTitle c)) then JNull
  else
    let static := js_or (titleStaticValue c) (JStr "QR Code") in
    match record t with
    | Some r =>
        if truthy_str (titleFieldApiName c) then
          let val :=
            match getQualifiedFieldName c (titleFieldApiName c) with
            | Some qualified => getFieldValue r qualified
            | None => JNull
            end in
          if truthy val then val else static
        else static
    | None => static
    end.

Definition qrValueResolved (t : Widget) : JsValue :=
  let c := config t in
  if usesRecordField c then
    match record t with
    | None => JNull
    | Some r =>
        match getQualifiedFieldName c (qrCodeValueFieldApiName c) with
        | Some qualified => getFieldValue r qualified
        | None => JNull
        end
    end
  else if isUrlParameterSource c then js_or (urlParamValue t) JNull
  else js_or (providedValue c) JNull.

Definition hasQrValue (t : Widget) : bool := truthy (qrValueResolved t).

Definition noValueMessage (c : Config) : JsValue :=
  js_or (noQrValueMessage c) (JStr "QR code is not available.").

Definition isReadyToRender (t : Widget) : bool :=
  if negb (domReady t) || negb (qrCodeLibLoaded t) then false
  else if usesRecordField (config t) then
    match record t with Some _ => true | None => false end
  else true.

(** *** Options builder *)

(** [v === s] for a string literal [s] *)
Definition strictEqStr (v : JsValue) (s : string) : bool :=
  match v with
  | JStr t => String.eqb t s
  | _ => false
  end.

(** [v?.toLowerCase?.()]: a nullish receiver, or one without the method,
    yields [undefined]. *)
Definition optToLowerCase (v : JsValue) : JsValue :=
  match v with
  | JStr s => JStr (toLowerCase s)
  | _ => JUndefined
  end.

(** [style === 'None' ? undefined : (style || undefined)?.toLowerCase?.()] *)
Definition cornerType (style : JsValue) : JsValue :=
  if strictEqStr style "None" then JUndefined
  else optToLowerCase (js_or style JUndefined).

Definition buildOptions (c : Config) (data : JsValue) : Options :=
  let dotsType := toLowerCase (str_or (qrCodeDotsType c) "Rounded") in
  let logo := truthy (logoUrl c) in
  {| width := qrCodeWidth c;
     height := qrCodeHeight c;
     data := data;
     dotsOptions := {| color := qrCodeDotsColor c; type := JStr dotsType |};
     backgroundOptions := {| background_color := backgroundColor c |};
     cornersSquareOptions :=
       {| color := qrCodeDotsColor c; type := cornerType (cornersSquareStyle c) |};
     cornersDotOptions :=
       {| color := qrCodeDotsColor c; type := cornerType (cornersDotStyle c) |};
     qrOptions := {| errorCorrectionLevel := "H" |};
     image := if logo then Some (logoUrl c) else None;
     imageOptions :=
       if logo then
         Some {| crossOrigin := "anonymous";
                 margin := js_or (logoImageMargin c) (JNum 5%float);
                 imageSize := js_or (logoImageSize c) (JNum 0.5%float);
                 hideBackgroundDots := true |}
       else None |}.

(** ** The component in its environment *)

(** Calls that leave the component: the asset loader, the console and the
    rendering library. *)
Inductive Effect : Type :=
| LoadScript
| ConsoleError (msg : string)
| Create (h : nat) (options : Options)
| Append (h : nat)
| Update (h : nat) (options : Options).

(** [qrDiv] is what [this.template.querySelector('.qrcode')] finds: [None]
    when the element is not in the template, else the artifacts appended to
    it.  [nextInstance] names the next object [new QRCodeStyling] returns,
    [loadPending] tells whether the [loadScript] promise is unsettled, and
    [log] lists the outgoing calls, oldest first. *)
Record World : Type := {
  this : Widget;
  qrDiv : option (list nat);
  nextInstance : nat;
  loadPending : bool;
  log : list Effect
}.

Definition newWorld (c : Config) : World :=
  {| this := newWidget c; qrDiv := None; nextInstance := 0;
     loadPending := false; log := [] |}.

Definition set_this (t : Widget) (w : World) : World :=
  {| this := t; qrDiv := qrDiv w; nextInstance := nextInstance w;
     loadPending := loadPending w; log := log w |}.

Definition set_qrDiv (d : option (list nat)) (w : World) : World :=
  {| this := this w; qrDiv := d; nextInstance := nextInstance w;
     loadPending := loadPending w; log := log w |}.

Definition set_loadPending (b : bool) (w : World) : World :=
  {| this := this w; qrDiv := qrDiv w; nextInstance := nextInstance w;
     loadPending := b; log := log w |}.

Definition emit (es : list Effect) (w : World) : World :=
  {| this := this w; qrDiv := qrDiv w; nextInstance := nextInstance w;
     loadPending := loadPending w; log := log w ++ es |}.

(** *** Draw QR *)

Definition tryRenderOrUpdateQr (w : World) : World :=
  if negb (isReadyToRender (this w)) then w
  else
    match qrDiv w with
    | None => w
    | Some _ =>
        let value := qrValueResolved (this w) in
        if negb (truthy value) then
          (* no value: clear any previously rendered QR *)
          match qrCodeInstance (this w) with
          | Some _ => set_qrDiv (Some []) (set_this (set_qrCodeInstance None (this w)) w)
          | None => w
          end
        else
          let options := buildOptions (config (this w)) value in
          match qrCodeInstance (this w) with
          | None =>
              let h := nextInstance w in
              {| this := set_qrCodeInstance (Some h) (this w);
                 qrDiv := Some [h];
                 nextInstance := S h;
                 loadPending := loadPending w;
                 log := log w ++ [Create h options; Append h] |}
          | Some h => emit [Update h options] w
          end
    end.

(** *** Lifecycle hooks and wires *)

Definition connectedCallback (w : World) : World :=
  if scriptLoadStarted (this w) then w
  else
    emit [LoadScript]
      (set_loadPending true (set_this (set_scriptLoadStarted true (this w)) w)).

(** The [then] callback of the load. *)
Definition scriptLoaded (w : World) : World :=
  tryRenderOrUpdateQr (set_this (set_qrCodeLibLoaded true (this w)) w).

(** The [catch] callback of the load. *)
Definition scriptLoadFailed (w : World) : World :=
  emit [ConsoleError "Error loading qr-code-styling:"] w.

Definition renderedCallback (w : World) : World :=
  let w1 := if negb (domReady (this w)) then set_this (set_domReady true (this w)) w else w in
  tryRenderOrUpdateQr w1.

Definition wiredRecord (data : option RecordSnapshot) (err : option JsError)
    (w : World) : World :=
  match data with
  | Some d => tryRenderOrUpdateQr (set_this (set_record (Some d) None (this w)) w)
  | None =>
      match err with
      | Some e => emit [ConsoleError e] (set_this (set_record None (Some e) (this w)) w)
      | None => w
      end
  end.

Definition wiredPageRef (pageRef : option PageRef) (w : World) : World :=
  let c := config (this w) in
  if usesRecordField c then w
  else if negb (isUrlParameterSource c) then
    set_this (set_urlParamValue JNull (this w)) w
  else
    let key := effectiveUrlParamName c in
    let raw := if negb (String.eqb key "") then pageRefState pageRef key else JNull in
    tryRenderOrUpdateQr (set_this (set_urlParamValue (js_or raw JNull) (this w)) w).

(** *** Events *)

(** What can happen to a component instance: its hooks and wires are
    invoked, the pending load settles, the owner sets public properties,
    and the template gains or loses the [.qrcode] element. *)
Inductive Event : Type :=
| EvConnected
| EvScriptSettled (ok : bool)
| EvRendered
| EvRecord (data : option RecordSnapshot) (err : option JsError)
| EvPageRef (pageRef : option PageRef)
| EvSetConfig (c : Config)
| EvTemplate (present : bool).

Definition step (e : Event) (w : World) : World :=
  match e with
  | EvConnected => connectedCallback w
  | EvScriptSettled ok =>
      if loadPending w then
        let w1 := set_loadPending false w in
        if ok then scriptLoaded w1 else scriptLoadFailed w1
      else w
  | EvRendered => renderedCallback w
  | EvRecord d e => wiredRecord d e w
  | EvPageRef p => wiredPageRef p w
  | EvSetConfig c => set_this (set_config c (this w)) w
  | EvTemplate present =>
      if present then
        match qrDiv w with Some _ => w | None => set_qrDiv (Some []) w end
      else set_qrDiv None w
  end.

Definition run (es : list Event) (w : World) : World :=
  fold_left (fun w e => step e w) es w.

(** Calls to the rendering library that draw: create and update. *)
Definition isRenderCall (e : Effect) : bool :=
  match e with
  | Create _ _ | Update _ _ => true
  | _ => false
  end.

Definition isCreate (e : Effect) : bool :=
  match e with Create _ _ => true | _ => false end.

Definition renderCalls (l : list Effect) : nat := List.length (List.filter isRenderCall l).

(** The calls an operation [f] adds to the log of [w]. *)
Definition emitted (f : World -> World) (w : World) : list Effect :=
  drop (List.length (log w)) (log (f w)).

(** ** Earlier iterations of the component *)

(** The original component, [force-app/main/default/lwc/qrCode/qrCode.js]:
    record pages only, the options built inside [generateQRCode].  Its
    sibling that takes the logo from a resource folder has the same
    qualifier, title and options, up to how the logo URL is formed. *)
Module Original.

(** [getQualifiedFieldName(fieldName)]: a blank field name stands for [Id]. *)
Definition getQualifiedFieldName (c : Config) (fieldName : option string) : option string :=
  let field := trim (str_or fieldName "Id") in
  match objectApiName c with
  | Some o => if String.eqb o "" then None else Some (o ++ "." ++ field)
  | None => None
  end.

(** [v.toLowerCase()]: a [TypeError], here [None], unless [v] is a string. *)
Definition callToLowerCase (v : JsValue) : option JsValue :=
  match v with
  | JStr s => Some (JStr (toLowerCase s))
  | _ => None
  end.

(** [style === 'None' ? undefined : style.toLowerCase()] *)
Definition cornerType (style : JsValue) : option JsValue :=
  if strictEqStr style "None" then Some JUndefined else callToLowerCase style.

(** The options object [generateQRCode] builds once the container is
    found; [None] when building it throws. *)
Definition generateQRCode_options (c : Config) : option Options :=
  match qrCodeDotsType c with
  | None => None
  | Some dotsType =>
      match cornerType (cornersSquareStyle c), cornerType (cornersDotStyle c) with
      | Some square, Some dot =>
          let logo := truthy (logoUrl c) in
          Some {| width := qrCodeWidth c;
                  height := qrCodeHeight c;
                  data := JStr (str_or (recordId c) "No Data");
                  dotsOptions :=
                    {| color := qrCodeDotsColor c; type := JStr (toLowerCase dotsType) |};
                  backgroundOptions := {| background_color := backgroundColor c |};
                  cornersSquareOptions := {| color := qrCodeDotsColor c; type := square |};
                  cornersDotOptions := {| color := qrCodeDotsColor c; type := dot |};
                  qrOptions := {| errorCorrectionLevel := "H" |};
                  image := if logo then Some (logoUrl c) else None;
                  imageOptions :=
                    if logo then
                      Some {| crossOrigin := "anonymous";
                              margin := js_or (logoImageMargin c) (JNum 5%float);
                              imageSize := js_or (logoImageSize c) (JNum 0.5%float);
                              hideBackgroundDots := true |}
                    else None |}
      | _, _ => None
      end
  end.

(** [title]: the record's title field once a snapshot is held, else the
    literal.  [None] stands for [getFieldValue(record, null)], whose outcome
    the platform decides. *)
Definition title (t : Widget) : option JsValue :=
  match record t with
  | Some r =>
      match getQualifiedFieldName (config t) (titleFieldApiName (config t)) with
      | Some qualified => Some (getFieldValue r qualified)
      | None => None
      end
  | None => Some (JStr "QR Code")
  end.

End Original.

(** The intermediate iteration: record-field mode and a static value. *)
Module StaticValue.

(** The property this iteration calls [qrCodeStaticValue]; the current one
    calls it [providedValue]. *)
Definition qrCodeStaticValue (c : Config) : JsValue := providedValue c.

Definition qrValueResolved (t : Widget) : JsValue :=
  let c := config t in
  if negb (usesRecordField c) then js_or (qrCodeStaticValue c) JNull
  else
    match record t with
    | None => JNull
    | Some r =>
        match getQualifiedFieldName c (qrCodeValueFieldApiName c) with
        | Some qualified => getFieldValue r qualified
        | None => JNull
        end
    end.

Definition isReadyToRender (t : Widget) : bool :=
  if negb (domReady t) || negb (qrCodeLibLoaded t) then false
  else if negb (usesRecordField (config t)) then truthy (qrCodeStaticValue (config t))
  else match record t with Some _ => true | None => false end.

Definition tryRenderOrUpdateQr (w : World) : World :=
  if negb (isReadyToRender (this w)) then w
  else
    let value := qrValueResolved (this w) in
    if negb (truthy value) then w
    else
      match qrDiv w with
      | None => w
      | Some _ =>
          let options := buildOptions (config (this w)) value in
          match qrCodeInstance (this w) with
          | None =>
              let h := nextInstance w in
              {| this := set_qrCodeInstance (Some h) (this w);
                 qrDiv := Some [h];
                 nextInstance := S h;
                 loadPending := loadPending w;
                 log := log w ++ [Create h options; Append h] |}
          | Some h => emit [Update h options] w
          end
      end.

End StaticValue.

(** ** Sample configurations *)

(** A record page for accounts, with a logo whose size and margin are
    configured as 0. *)
Definition accountConfig : Config := {|
  recordId := Some "001xx000003DGb2AAG"; objectApiName := Some "Account";
  qrCodeValueFieldApiName := Some "AccountNumber";
  valueSource := Some "Provided Value"; providedValue := JStr "ABC123";
  urlParamName := Some "qrv";
  showTitle := JBool true; titleFieldApiName := Some "Name";
  titleStaticValue := JStr "Scan me";
  qrCodeHeight := JNum 300%float; qrCodeWidth := JNum 300%float;
  qrCodeDotsColor := JStr "#000000";
  qrCodeDotsType := Some "Rounded"; backgroundColor := JStr "#ffffff";
  cornersSquareStyle := JStr "Extra-Rounded"; cornersDotStyle := JStr "None";
  logoUrl := JStr "/resource/logo.png"; logoImageSize := JNum 0%float;
  logoImageMargin := JNum 0%float;
  noQrValueMessage := JUndefined
|}.

Definition accountRecord : RecordSnapshot :=
  {[ "Account.Name" := JStr "Acme"; "Account.AccountNumber" := JStr "CD451796" ]}.

Definition set_value_inputs (source : option string) (provided : JsValue)
    (c : Config) : Config := {|
  recordId := recordId c; objectApiName := objectApiName c;
  qrCodeValueFieldApiName := qrCodeValueFieldApiName c;
  valueSource := source; providedValue := provided;
  urlParamName := urlParamName c;
  showTitle := showTitle c; titleFieldApiName := titleFieldApiName c;
  titleStaticValue := titleStaticValue c;
  qrCodeHeight := qrCodeHeight c; qrCodeWidth := qrCodeWidth c;
  qrCodeDotsColor := qrCodeDotsColor c;
  qrCodeDotsType := qrCodeDotsType c; backgroundColor := backgroundColor c;
  cornersSquareStyle := cornersSquareStyle c; cornersDotStyle := cornersDotStyle c;
  logoUrl := logoUrl c; logoImageSize := logoImageSize c;
  logoImageMargin := logoImageMargin c;
  noQrValueMessage := noQrValueMessage c
|}.

Definition set_value_field (f : option string) (c : Config) : Config := {|
  recordId := recordId c; objectApiName := objectApiName c;
  qrCodeValueFieldApiName := f;
  valueSource := valueSource c; providedValue := providedValue c;
  urlParamName := urlParamName c;
  showTitle := showTitle c; titleFieldApiName := titleFieldApiName c;
  titleStaticValue := titleStaticValue c;
  qrCodeHeight := qrCodeHeight c; qrCodeWidth := qrCodeWidth c;
  qrCodeDotsColor := qrCodeDotsColor c;
  qrCodeDotsType := qrCodeDotsType c; backgroundColor := backgroundColor c;
  cornersSquareStyle := cornersSquareStyle c; cornersDotStyle := cornersDotStyle c;
  logoUrl := logoUrl c; logoImageSize := logoImageSize c;
  logoImageMargin := logoImageMargin c;
  noQrValueMessage := noQrValueMessage c
|}.

(** An Experience Cloud page with a provided value. *)
Definition providedConfig : Config := {|
  recordId := None; objectApiName := None; qrCodeValueFieldApiName := None;
  valueSource := Some "Provided Value"; providedValue := JStr "ABC123";
  urlParamName := Some "qrv";
  showTitle := JBool false; titleFieldApiName := None; titleStaticValue := JUndefined;
  qrCodeHeight := JNum 300%float; qrCodeWidth := JNum 300%float;
  qrCodeDotsColor := JStr "#000000";
  qrCodeDotsType := Some "Rounded"; backgroundColor := JStr "#ffffff";
  cornersSquareStyle := JStr "Square"; cornersDotStyle := JStr "Dot";
  logoUrl := JUndefined; logoImageSize := JUndefined; logoImageMargin := JUndefined;
  noQrValueMessage := JUndefined
|}.

(** Setters for the public properties the samples vary. *)
Definition set_providedValue (v : JsValue) (c : Config) : Config :=
  set_value_inputs (valueSource c) v c.

(** * Properties *)

(** ** The string built-ins *)

Definition startsClean (s : string) : Prop :=
  match s with
  | EmptyString => True
  | String c _ => isWhiteSpace c = false
  end.

Fixpoint allWhiteSpace (s : string) : bool :=
  match s with
  | EmptyString => true
  | String c s' => isWhiteSpace c && allWhiteSpace s'
  end.

Lemma trimStart_clean s : startsClean (trimStart s).
Proof.
  induction s as [|c s IH]; simpl; [exact I|].
  destruct (isWhiteSpace c) eqn:E; [exact IH | exact E].
Qed.

Lemma trimStart_id s : startsClean s -> trimStart s = s.
Proof. destruct s as [|c s]; simpl; [reflexivity|]. intros ->. reflexivity. Qed.

Lemma trimEnd_clean s : startsClean s -> startsClean (trimEnd s).
Proof.
  destruct s as [|c s]; simpl; [exact (fun H => H)|].
  intros E. destruct (trimEnd s); [rewrite E|]; exact E.
Qed.

Lemma trimEnd_idempotent s : trimEnd (trimEnd s) = trimEnd s.
Proof.
  induction s as [|c s IH]; simpl; [reflexivity|].
  destruct (trimEnd s) as [|d u] eqn:E.
  - destruct (isWhiteSpace c) eqn:W; simpl; [reflexivity | rewrite W; reflexivity].
  - change (trimEnd (String c (String d u))) with
      (match trimEnd (String d u) with
       | EmptyString => if isWhiteSpace c then EmptyString else String c EmptyString
       | t => String c t
       end).
    rewrite IH. reflexivity.
Qed.

Lemma trim_idempotent s : trim (trim s) = trim s.
Proof.
  unfold trim.
  rewrite (trimStart_id (trimEnd (trimStart s))).
  - apply trimEnd_idempotent.
  - apply trimEnd_clean, trimStart_clean.
Qed.

Lemma string_app_cons c (s u : string) : String c s ++ u = String c (s ++ u).
Proof. reflexivity. Qed.

Lemma string_app_nil (u : string) : "" ++ u = u.
Proof. reflexivity. Qed.

(** [trim] removes white space only, and only at the two ends. *)
Lemma trimStart_split s :
  exists l, s = l ++ trimStart s /\ allWhiteSpace l = true.
Proof.
  induction s as [|c s [l [Hl Hw]]]; simpl.
  - exists "". split; reflexivity.
  - destruct (isWhiteSpace c) eqn:E.
    + exists (String c l). split.
      * rewrite string_app_cons. f_equal. exact Hl.
      * simpl. rewrite E, Hw. reflexivity.
    + exists "". split; reflexivity.
Qed.

Lemma trimEnd_split s :
  exists r, s = trimEnd s ++ r /\ allWhiteSpace r = true.
Proof.
  induction s as [|c s [r [Hr Hw]]]; simpl.
  - exists "". split; reflexivity.
  - destruct (trimEnd s) as [|d u] eqn:E.
    + destruct (isWhiteSpace c) eqn:W.
      * exists (String c r). split.
        -- rewrite string_app_nil in *. rewrite <- Hr. reflexivity.
        -- simpl. rewrite W, Hw. reflexivity.
      * exists r. split; [|exact Hw].
        rewrite string_app_cons. f_equal. exact Hr.
    + exists r. split; [|exact Hw].
      rewrite string_app_cons. f_equal. exact Hr.
Qed.

Lemma trim_split s :
  exists l r, s = l ++ trim s ++ r /\ allWhiteSpace l = true /\ allWhiteSpace r = true.
Proof.
  destruct (trimStart_split s) as [l [Hl Wl]].
  destruct (trimEnd_split (trimStart s)) as [r [Hr Wr]].
  exists l, r. unfold trim. rewrite <- Hr, <- Hl. auto.
Qed.

(** ** Field qualifier *)

(** The contract in the specification's words: trim the field name; no
    result when the trimmed name is empty or the object type is absent;
    else the object type, a dot and the trimmed name. *)
Definition qualify (objectType fieldName : option string) : option string :=
  let trimmedField := trim (default "" fieldName) in
  match objectType with
  | None => None
  | Some objectType =>
      if decide (trimmedField = "" \/ objectType = "") then None
      else Some (objectType ++ "." ++ trimmedField)
  end.

Lemma str_or_empty (o : option string) : str_or o "" = default "" o.
Proof. destruct o as [s|]; simpl; [|reflexivity]. destruct (String.eqb_spec s ""); auto. Qed.

Lemma qualified_eq_qualify (c : Config) (fieldName : option string) :
  getQualifiedFieldName c fieldName = qualify (objectApiName c) fieldName.
Proof.
  unfold getQualifiedFieldName, qualify. rewrite str_or_empty.
  set (field := trim (default "" fieldName)).
  destruct (String.eqb_spec field "") as [E|E].
  - destruct (objectApiName c) as [o|]; [|reflexivity].
    destruct (decide (field = "" \/ o = "")) as [_|N]; [reflexivity|].
    exfalso. apply N. left. exact E.
  - destruct (objectApiName c) as [o|]; [|reflexivity].
    destruct (String.eqb_spec o "") as [O|O].
    + destruct (decide (field = "" \/ o = "")) as [_|N]; [reflexivity|].
      exfalso. apply N. right. exact O.
    + destruct (decide (field = "" \/ o = "")) as [[H|H]|_]; [contradiction..|reflexivity].
Qed.

Lemma qualify_cases (objectType fieldName : option string) :
  (trim (default "" fieldName) = "" -> qualify objectType fieldName = None)
  /\ (truthy_str objectType = false -> qualify objectType fieldName = None)
  /\ (forall o, objectType = Some o -> o <> "" -> trim (default "" fieldName) <> "" ->
        qualify objectType fieldName = Some (o ++ "." ++ trim (default "" fieldName))).
Proof.
  unfold qualify. repeat split.
  - intros E. destruct objectType as [o|]; [|reflexivity].
    destruct (decide _) as [_|N]; [reflexivity|]. exfalso. apply N. left. exact E.
  - destruct objectType as [o|]; [|reflexivity]. simpl.
    destruct (String.eqb_spec o "") as [->|]; [|discriminate]. intros _.
    destruct (decide _) as [_|N]; [reflexivity|]. exfalso. apply N. right. reflexivity.
  - intros o -> O F. destruct (decide _) as [[D|D]|_]; [contradiction..|reflexivity].
Qed.

(** C7: for every object type and field name the field qualifier trims the
    field name, returns null when the trimmed name is empty or the object
    type is absent, and otherwise returns the object type, a dot and the
    trimmed name.  It is a function of its two inputs: no other property
    of the component is read, and nothing is written. *)
Theorem getQualifiedFieldName_qualify (c : Config) (fieldName : option string) :
  let trimmed := trim (default "" fieldName) in
  getQualifiedFieldName c fieldName = qualify (objectApiName c) fieldName
  /\ (trimmed = "" -> getQualifiedFieldName c fieldName = None)
  /\ (truthy_str (objectApiName c) = false -> getQualifiedFieldName c fieldName = None)
  /\ (forall o, objectApiName c = Some o -> o <> "" -> trimmed <> "" ->
        getQualifiedFieldName c fieldName = Some (o ++ "." ++ trimmed))
  /\ (forall c', objectApiName c' = objectApiName c ->
        getQualifiedFieldName c' fieldName = getQualifiedFieldName c fieldName).
Proof.
  intros trimmed. subst trimmed.
  destruct (qualify_cases (objectApiName c) fieldName) as [A [B C]].
  rewrite qualified_eq_qualify.
  split; [reflexivity|]. split; [exact A|]. split; [exact B|]. split; [exact C|].
  intros c' E. rewrite qualified_eq_qualify, E. reflexivity.
Qed.

Lemma getQualifiedFieldName_qualify_witness :
  getQualifiedFieldName accountConfig (Some "  Name ") = Some "Account.Name".
Proof.
  destruct (getQualifiedFieldName_qualify accountConfig (Some "  Name "))
    as [_ [_ [_ [H _]]]].
  apply (H "Account"); [reflexivity | discriminate | discriminate].
Defined.

Example qualify_ex1 : qualify (Some "Account") (Some " Name ") = Some "Account.Name".
Proof. reflexivity. Qed.

Example qualify_ex2 : qualify (Some "Account") (Some "   ") = None.
Proof. reflexivity. Qed.

Example qualify_ex3 : qualify None (Some "Name") = None.
Proof. reflexivity. Qed.

(** ** Value resolver *)

(** The three value-source modes, each with the inputs that belong to it. *)
Inductive ModeInputs : Type :=
| RecordFieldMode (objectType valueField : option string) (snapshot : option RecordSnapshot)
| UrlParameterMode (cached : JsValue)
| ProvidedValueMode (provided : JsValue).

(** The precedence of the specification: record-field mode when record id,
    object type and value field are all present; else URL-parameter mode
    when the selector says so; else provided-value mode. *)
Definition selectedMode (t : Widget) : ModeInputs :=
  let c := config t in
  match recordId c, objectApiName c, qrCodeValueFieldApiName c with
  | Some (String _ _), Some (String _ _), Some (String _ _) =>
      RecordFieldMode (objectApiName c) (qrCodeValueFieldApiName c) (record t)
  | _, _, _ =>
      if decide (valueSource c = Some "URL Parameter")
      then UrlParameterMode (urlParamValue t)
      else ProvidedValueMode (providedValue c)
  end.

(** What each mode resolves to, from its own inputs alone. *)
Definition resolveValue (m : ModeInputs) : JsValue :=
  match m with
  | RecordFieldMode objectType valueField snapshot =>
      match snapshot, qualify objectType valueField with
      | Some r, Some q => getFieldValue r q
      | _, _ => JNull
      end
  | UrlParameterMode cached => if truthy cached then cached else JNull
  | ProvidedValueMode provided => if truthy provided then provided else JNull
  end.

Lemma truthy_str_cons (o : option string) :
  truthy_str o = match o with Some (String _ _) => true | _ => false end.
Proof. destruct o as [[|a s]|]; reflexivity. Qed.

Lemma usesRecordField_selectedMode (t : Widget) :
  usesRecordField (config t) = true ->
  selectedMode t =
    RecordFieldMode (objectApiName (config t)) (qrCodeValueFieldApiName (config t)) (record t).
Proof.
  unfold usesRecordField, selectedMode. rewrite !truthy_str_cons.
  destruct (recordId (config t)) as [[|? ?]|]; simpl; try discriminate;
  destruct (objectApiName (config t)) as [[|? ?]|]; simpl; try discriminate;
  destruct (qrCodeValueFieldApiName (config t)) as [[|? ?]|]; simpl; try discriminate.
  reflexivity.
Qed.

Lemma not_usesRecordField_selectedMode (t : Widget) :
  usesRecordField (config t) = false ->
  selectedMode t =
    if isUrlParameterSource (config t)
    then UrlParameterMode (urlParamValue t)
    else ProvidedValueMode (providedValue (config t)).
Proof.
  unfold usesRecordField, selectedMode, isUrlParameterSource. rewrite !truthy_str_cons.
  intros H.
  assert (S : (if decide (valueSource (config t) = Some "URL Parameter")
               then UrlParameterMode (urlParamValue t)
               else ProvidedValueMode (providedValue (config t)))
              = if match valueSource (config t) with
                   | Some s => String.eqb s "URL Parameter"
                   | None => false
                   end
                then UrlParameterMode (urlParamValue t)
                else ProvidedValueMode (providedValue (config t))).
  { destruct (valueSource (config t)) as [s|].
    - destruct (String.eqb_spec s "URL Parameter") as [->|N].
      + destruct (decide _) as [_|D]; [reflexivity | congruence].
      + destruct (decide _) as [D|_]; [congruence | reflexivity].
    - destruct (decide _) as [D|_]; [discriminate | reflexivity]. }
  rewrite <- S. clear S.
  destruct (recordId (config t)) as [[|? ?]|]; try reflexivity;
  destruct (objectApiName (config t)) as [[|? ?]|]; try reflexivity;
  destruct (qrCodeValueFieldApiName (config t)) as [[|? ?]|]; try reflexivity.
  discriminate H.
Qed.

Lemma qrValueResolved_resolveValue (t : Widget) :
  qrValueResolved t = resolveValue (selectedMode t).
Proof.
  unfold qrValueResolved.
  destruct (usesRecordField (config t)) eqn:U.
  - rewrite (usesRecordField_selectedMode t U). simpl.
    rewrite qualified_eq_qualify.
    destruct (record t); reflexivity.
  - rewrite (not_usesRecordField_selectedMode t U).
    destruct (isUrlParameterSource (config t)); reflexivity.
Qed.

Lemma resolveValue_no_snapshot objectType valueField :
  resolveValue (RecordFieldMode objectType valueField None) = JNull.
Proof. reflexivity. Qed.

Lemma resolveValue_field (objectType valueField : option string)
    (r : RecordSnapshot) (q : string) :
  qualify objectType valueField = Some q ->
  resolveValue (RecordFieldMode objectType valueField (Some r)) = default JUndefined (r !! q).
Proof. intros H. simpl. rewrite H. reflexivity. Qed.

(** A field the snapshot does not hold, or holds empty, is no value. *)
Lemma resolveValue_field_absent (objectType valueField : option string)
    (r : RecordSnapshot) (q : string) :
  qualify objectType valueField = Some q ->
  r !! q = None \/ r !! q = Some JNull \/ r !! q = Some (JStr "") ->
  truthy (resolveValue (RecordFieldMode objectType valueField (Some r))) = false.
Proof.
  intros H A. rewrite (resolveValue_field _ _ r q H).
  destruct A as [-> | [-> | ->]]; reflexivity.
Qed.

Lemma resolveValue_blank (v : JsValue) :
  truthy v = false ->
  resolveValue (UrlParameterMode v) = JNull /\ resolveValue (ProvidedValueMode v) = JNull.
Proof. intros H. simpl. rewrite H. auto. Qed.

(** C1: exactly one value-source mode determines the resolved value, by
    the fixed precedence: record-field mode when record id, object type and
    value field are all present, reading the snapshot at the qualified
    value field (null without a snapshot); otherwise URL-parameter mode
    when the selector is 'URL Parameter', reading the cached parameter
    value; otherwise the provided value (null if blank).  The resolved
    value is computed from the selected mode's own inputs, so two
    component states that select the same mode with the same inputs
    resolve to the same value, whatever the inputs of the other modes. *)
Theorem value_source_precedence (t t' : Widget) :
  selectedMode t' = selectedMode t ->
  qrValueResolved t = resolveValue (selectedMode t)
  /\ qrValueResolved t' = qrValueResolved t
  /\ (usesRecordField (config t) = true ->
        selectedMode t = RecordFieldMode (objectApiName (config t))
                           (qrCodeValueFieldApiName (config t)) (record t)
        /\ (record t = None -> qrValueResolved t = JNull)
        /\ (forall r q, record t = Some r ->
              getQualifiedFieldName (config t) (qrCodeValueFieldApiName (config t)) = Some q ->
              qrValueResolved t = getFieldValue r q
              /\ (r !! q = None \/ r !! q = Some JNull \/ r !! q = Some (JStr "") ->
                  hasQrValue t = false)))
  /\ (usesRecordField (config t) = false -> isUrlParameterSource (config t) = true ->
        selectedMode t = UrlParameterMode (urlParamValue t)
        /\ qrValueResolved t = js_or (urlParamValue t) JNull)
  /\ (usesRecordField (config t) = false -> isUrlParameterSource (config t) = false ->
        selectedMode t = ProvidedValueMode (providedValue (config t))
        /\ qrValueResolved t = js_or (providedValue (config t)) JNull).
Proof.
  intros H. split; [apply qrValueResolved_resolveValue|].
  split; [rewrite !qrValueResolved_resolveValue, H; reflexivity|].
  split; [|split].
  - intros U. split; [apply usesRecordField_selectedMode, U|].
    unfold qrValueResolved. rewrite U. split.
    + intros ->. reflexivity.
    + intros r q R Q. unfold hasQrValue, qrValueResolved. rewrite U, R, Q.
      split; [reflexivity|]. unfold getFieldValue.
      intros [-> | [-> | ->]]; reflexivity.
  - intros U S. rewrite (not_usesRecordField_selectedMode t U), S.
    split; [reflexivity|]. unfold qrValueResolved. rewrite U, S. reflexivity.
  - intros U S. rewrite (not_usesRecordField_selectedMode t U), S.
    split; [reflexivity|]. unfold qrValueResolved. rewrite U, S. reflexivity.
Qed.

(** In record-field mode, switching the selector and the provided value,
    and caching a URL parameter, leave the resolved value where it was. *)
Lemma value_source_precedence_witness :
  let t := set_record (Some accountRecord) None (newWidget accountConfig) in
  let t' := set_urlParamValue (JStr "XYZ")
              (set_config (set_value_inputs (Some "URL Parameter") (JStr "other") accountConfig) t) in
  qrValueResolved t = JStr "CD451796" /\ qrValueResolved t' = qrValueResolved t.
Proof.
  intros t t'.
  destruct (value_source_precedence t t' eq_refl) as [H1 [H2 _]].
  split; [rewrite H1; reflexivity | exact H2].
Defined.

(** ** Title *)

(** The snapshot's value at the qualified title field. *)
Definition recordTitle (t : Widget) : JsValue :=
  match record t, qualify (objectApiName (config t)) (titleFieldApiName (config t)) with
  | Some r, Some q => getFieldValue r q
  | _, _ => JNull
  end.

(** The configured static title, defaulting to the literal. *)
Definition staticTitle (c : Config) : JsValue :=
  if truthy (titleStaticValue c) then titleStaticValue c else JStr "QR Code".

(** Title resolution as the specification words it: the record's title is
    used when record-field mode is active. *)
Definition title_by_mode (t : Widget) : JsValue :=
  if truthy (showTitle (config t)) then
    if usesRecordField (config t) && truthy (recordTitle t) then recordTitle t
    else staticTitle (config t)
  else JNull.

(** Title resolution as the getter performs it: the record's title is used
    whenever a snapshot holds one. *)
Definition title_by_snapshot (t : Widget) : JsValue :=
  if truthy (showTitle (config t)) then
    if truthy (recordTitle t) then recordTitle t else staticTitle (config t)
  else JNull.

Lemma qualify_blank (o f : option string) : truthy_str f = false -> qualify o f = None.
Proof.
  intros H. unfold qualify.
  assert (E : default "" f = "").
  { destruct f as [s|]; [|reflexivity]. simpl in *.
    destruct (String.eqb_spec s ""); [assumption | discriminate]. }
  rewrite E. destruct o as [o|]; [|reflexivity].
  destruct (decide _) as [_|N]; [reflexivity|]. exfalso. apply N. left. reflexivity.
Qed.

Lemma title_eq_by_snapshot (t : Widget) : title t = title_by_snapshot t.
Proof.
  unfold title, title_by_snapshot, recordTitle, staticTitle, js_or.
  destruct (truthy (showTitle (config t))); simpl; [|reflexivity].
  destruct (record t) as [r|]; [|reflexivity].
  destruct (truthy_str (titleFieldApiName (config t))) eqn:F.
  - rewrite qualified_eq_qualify. reflexivity.
  - rewrite (qualify_blank _ _ F). reflexivity.
Qed.

(** Where a snapshot is only ever held in record-field mode, the two
    readings agree. *)
Lemma title_eq_by_mode (t : Widget) :
  (record t <> None -> usesRecordField (config t) = true) ->
  title t = title_by_mode t.
Proof.
  intros H. rewrite title_eq_by_snapshot. unfold title_by_snapshot, title_by_mode.
  destruct (truthy (showTitle (config t))); [|reflexivity].
  destruct (usesRecordField (config t)) eqn:U; [reflexivity|].
  simpl. unfold recordTitle.
  destruct (record t) as [r|]; [|reflexivity].
  discriminate H. discriminate.
Qed.

(** C8, as amended: with title display disabled the title is null;
    otherwise, if a record snapshot is held and holds a non-empty value at
    the qualified title field, the title is that value, whether or not
    record-field mode is active; otherwise it is the configured static
    title, defaulting to the literal 'QR Code'.  Where a snapshot is held
    in record-field mode only, this is the resolution by mode. *)
Theorem title_resolution (t : Widget) :
  title t = title_by_snapshot t
  /\ (truthy (showTitle (config t)) = false -> title t = JNull)
  /\ (truthy (showTitle (config t)) = true -> truthy (recordTitle t) = true ->
        title t = recordTitle t)
  /\ (truthy (showTitle (config t)) = true -> truthy (recordTitle t) = false ->
        title t = js_or (titleStaticValue (config t)) (JStr "QR Code"))
  /\ ((record t <> None -> usesRecordField (config t) = true) ->
        title t = title_by_mode t).
Proof.
  split; [apply title_eq_by_snapshot|].
  split; [|split; [|split; [|apply title_eq_by_mode]]].
  - intros E. rewrite title_eq_by_snapshot. unfold title_by_snapshot.
    rewrite E. reflexivity.
  - intros E R. rewrite title_eq_by_snapshot. unfold title_by_snapshot.
    rewrite E, R. reflexivity.
  - intros E R. rewrite title_eq_by_snapshot. unfold title_by_snapshot.
    rewrite E, R. reflexivity.
Qed.

Lemma title_resolution_witness :
  title (set_record (Some accountRecord) None (newWidget accountConfig)) = JStr "Acme".
Proof.
  destruct (title_resolution (set_record (Some accountRecord) None (newWidget accountConfig)))
    as [_ [_ [H _]]].
  rewrite H; reflexivity.
Defined.

(** A record page whose value field the owner has cleared after the
    snapshot arrived: record-field mode is off, the snapshot is still held. *)
Definition titleOnlyWorld : World :=
  run [EvRecord (Some accountRecord) None;
       EvSetConfig (set_value_field None accountConfig)]
      (newWorld accountConfig).

(** C8 as stated fails: outside record-field mode the claim gives the
    static title, the getter gives the record's. *)
Lemma title_by_mode_counterexample :
  usesRecordField (config (this titleOnlyWorld)) = false
  /\ title (this titleOnlyWorld) = JStr "Acme"
  /\ title_by_mode (this titleOnlyWorld) = JStr "Scan me"
  /\ title (this titleOnlyWorld) <> title_by_mode (this titleOnlyWorld).
Proof. vm_compute. repeat split; try reflexivity. discriminate. Qed.

(** ** Options builder *)

(** The corner style type in the specification's words: the sentinel and
    an absent style leave the type unset, any other non-empty string is
    lowercased. *)
Definition styleType (style : JsValue) : JsValue :=
  match style with
  | JStr s =>
      if decide (s = "None") then JUndefined
      else if decide (s = "") then JUndefined
      else JStr (toLowerCase s)
  | _ => JUndefined
  end.

Lemma cornerType_styleType (style : JsValue) : cornerType style = styleType style.
Proof.
  unfold cornerType, styleType, js_or, strictEqStr.
  destruct style as [| |b|x|s]; simpl; try reflexivity.
  - destruct b; reflexivity.
  - destruct (negb _); reflexivity.
  - destruct (String.eqb_spec s "None") as [->|N].
    + reflexivity.
    + destruct (decide (s = "None")) as [D|_]; [contradiction|].
      destruct (String.eqb_spec s "") as [->|E]; simpl.
      * reflexivity.
      * destruct (decide (s = "")) as [D|_]; [contradiction|]. reflexivity.
Qed.

(** What the claim says of one corner style and its type in the options. *)
Definition CornerStyleSpec (style type_ : JsValue) : Prop :=
  (style = JStr "None" \/ style = JUndefined \/ style = JNull \/ style = JStr "" ->
     type_ = JUndefined)
  /\ (forall s, style = JStr s -> s <> "None" -> s <> "" -> type_ = JStr (toLowerCase s)).

Lemma styleType_spec (style : JsValue) : CornerStyleSpec style (styleType style).
Proof.
  split.
  - intros [-> | [-> | [-> | ->]]]; reflexivity.
  - intros s -> N E. unfold styleType.
    destruct (decide (s = "None")); [contradiction|].
    destruct (decide (s = "")); [contradiction|]. reflexivity.
Qed.

(** C6: in the built options the corner-square and corner-dot style types
    are unset whenever the configured style is the sentinel 'None' or is
    absent, and are the configured string lowercased for any other
    non-empty string. *)
Theorem corner_style_types (c : Config) (d : JsValue) :
  CornerStyleSpec (cornersSquareStyle c) (type (cornersSquareOptions (buildOptions c d)))
  /\ CornerStyleSpec (cornersDotStyle c) (type (cornersDotOptions (buildOptions c d)))
  /\ type (cornersSquareOptions (buildOptions c d)) = styleType (cornersSquareStyle c)
  /\ type (cornersDotOptions (buildOptions c d)) = styleType (cornersDotStyle c).
Proof.
  cbn [buildOptions cornersSquareOptions cornersDotOptions type].
  rewrite !cornerType_styleType.
  split; [apply styleType_spec|]. split; [apply styleType_spec|].
  split; reflexivity.
Qed.

Lemma corner_style_types_witness :
  type (cornersSquareOptions (buildOptions accountConfig (JStr "CD451796")))
    = JStr "extra-rounded"
  /\ type (cornersDotOptions (buildOptions accountConfig (JStr "CD451796"))) = JUndefined.
Proof.
  destruct (corner_style_types accountConfig (JStr "CD451796")) as [[_ A] [[B _] _]].
  split.
  - apply (A "Extra-Rounded"); [reflexivity | discriminate | discriminate].
  - apply B. left. reflexivity.
Defined.

Example corner_style_ex :
  type (cornersSquareOptions (buildOptions accountConfig (JStr "x"))) = JStr "extra-rounded"
  /\ type (cornersDotOptions (buildOptions accountConfig (JStr "x"))) = JUndefined
  /\ type (cornersDotOptions (buildOptions defaultConfig (JStr "x"))) = JUndefined.
Proof. repeat split. Qed.

(** A number that is zero of either sign. *)
Definition isZero (v : JsValue) : bool :=
  match v with
  | JNum x => PrimFloat.eqb x 0%float
  | _ => false
  end.

Lemma truthy_not_zero (v : JsValue) : truthy v = true -> isZero v = false.
Proof.
  destruct v as [| |b|x|s]; simpl; try reflexivity.
  destruct (PrimFloat.eqb x 0); [discriminate | reflexivity].
Qed.

Lemma zero_falsy (v : JsValue) : isZero v = true -> truthy v = false.
Proof.
  destruct v as [| |b|x|s]; simpl; try discriminate.
  intros ->. reflexivity.
Qed.

Lemma js_or_not_zero (v d : JsValue) : isZero d = false -> isZero (js_or v d) = false.
Proof.
  intros D. unfold js_or. destruct (truthy v) eqn:T; [apply truthy_not_zero, T | exact D].
Qed.

(** C10: with a logo configured, a configured margin of 0 becomes the
    default 5 and a configured image size of 0 becomes the default 0.5, and
    neither option is ever 0; with no logo configured the image and
    imageOptions keys are absent. *)
Theorem logo_options (c : Config) (d : JsValue) :
  (truthy (logoUrl c) = true ->
     exists io, imageOptions (buildOptions c d) = Some io
       /\ image (buildOptions c d) = Some (logoUrl c)
       /\ (isZero (logoImageMargin c) = true -> margin io = JNum 5%float)
       /\ (isZero (logoImageSize c) = true -> imageSize io = JNum 0.5%float)
       /\ isZero (margin io) = false
       /\ isZero (imageSize io) = false)
  /\ (truthy (logoUrl c) = false ->
        image (buildOptions c d) = None /\ imageOptions (buildOptions c d) = None).
Proof.
  unfold buildOptions; simpl. split; intros L; rewrite L.
  - eexists. split; [reflexivity|]. simpl. repeat split.
    + intros Z. unfold js_or. rewrite (zero_falsy _ Z). reflexivity.
    + intros Z. unfold js_or. rewrite (zero_falsy _ Z). reflexivity.
    + apply js_or_not_zero. reflexivity.
    + apply js_or_not_zero. reflexivity.
  - split; reflexivity.
Qed.

Lemma logo_options_witness :
  exists io, imageOptions (buildOptions accountConfig (JStr "ABC123")) = Some io
    /\ margin io = JNum 5%float /\ imageSize io = JNum 0.5%float.
Proof.
  destruct (proj1 (logo_options accountConfig (JStr "ABC123")) eq_refl)
    as [io [H1 [_ [H3 [H4 _]]]]].
  exists io. split; [exact H1|]. split; [apply H3 | apply H4]; reflexivity.
Defined.

(** ** Render scheduler *)

(** The world after the clear branch, and after the create branch. *)
Definition cleared (w : World) : World :=
  set_qrDiv (Some []) (set_this (set_qrCodeInstance None (this w)) w).

Definition created (options : Options) (w : World) : World :=
  {| this := set_qrCodeInstance (Some (nextInstance w)) (this w);
     qrDiv := Some [nextInstance w];
     nextInstance := S (nextInstance w);
     loadPending := loadPending w;
     log := log w ++ [Create (nextInstance w) options; Append (nextInstance w)] |}.

(** The branches of the evaluate-and-render step. *)
Inductive RenderStep (w : World) : World -> Prop :=
| RsNotReady :
    isReadyToRender (this w) = false -> RenderStep w w
| RsNoMount :
    isReadyToRender (this w) = true -> qrDiv w = None -> RenderStep w w
| RsNothing d :
    isReadyToRender (this w) = true -> qrDiv w = Some d ->
    hasQrValue (this w) = false -> qrCodeInstance (this w) = None ->
    RenderStep w w
| RsClear d h :
    isReadyToRender (this w) = true -> qrDiv w = Some d ->
    hasQrValue (this w) = false -> qrCodeInstance (this w) = Some h ->
    RenderStep w (cleared w)
| RsCreate d :
    isReadyToRender (this w) = true -> qrDiv w = Some d ->
    hasQrValue (this w) = true -> qrCodeInstance (this w) = None ->
    RenderStep w (created (buildOptions (config (this w)) (qrValueResolved (this w))) w)
| RsUpdate d h :
    isReadyToRender (this w) = true -> qrDiv w = Some d ->
    hasQrValue (this w) = true -> qrCodeInstance (this w) = Some h ->
    RenderStep w (emit [Update h (buildOptions (config (this w)) (qrValueResolved (this w)))] w).

Lemma tryRender_step (w : World) : RenderStep w (tryRenderOrUpdateQr w).
Proof.
  unfold tryRenderOrUpdateQr.
  destruct (isReadyToRender (this w)) eqn:R; simpl; [|apply RsNotReady, R].
  destruct (qrDiv w) as [d|] eqn:D; [|apply RsNoMount; assumption].
  destruct (truthy (qrValueResolved (this w))) eqn:V; simpl;
    destruct (qrCodeInstance (this w)) as [h|] eqn:I.
  - eapply RsUpdate; eassumption.
  - eapply RsCreate; eassumption.
  - eapply RsClear; eassumption.
  - eapply RsNothing; eassumption.
Qed.

Lemma emitted_id (w : World) : drop (List.length (log w)) (log w) = [].
Proof. apply drop_all. Qed.

Lemma emitted_app (w : World) (es : list Effect) :
  drop (List.length (log w)) (log w ++ es) = es.
Proof. apply drop_app_length. Qed.

(** The step only ever appends to the log. *)
Lemma tryRender_log (w : World) :
  log (tryRenderOrUpdateQr w) = (log w ++ emitted tryRenderOrUpdateQr w)%list.
Proof.
  unfold emitted. destruct (tryRender_step w); simpl;
    rewrite ?emitted_id, ?emitted_app, ?app_nil_r; reflexivity.
Qed.

(** [!!this.record], the getter's own test: a snapshot is held. *)
Definition snapshotHeld (t : Widget) : bool :=
  match record t with Some _ => true | None => false end.

Lemma isReadyToRender_conj (t : Widget) :
  isReadyToRender t =
    domReady t && qrCodeLibLoaded t
    && (if usesRecordField (config t) then snapshotHeld t else true).
Proof.
  unfold isReadyToRender, snapshotHeld.
  destruct (domReady t), (qrCodeLibLoaded t), (usesRecordField (config t)); reflexivity.
Qed.

Lemma not_ready_noop (w : World) :
  isReadyToRender (this w) = false -> tryRenderOrUpdateQr w = w.
Proof. intros H. unfold tryRenderOrUpdateQr. rewrite H. reflexivity. Qed.













(** *** Invoking the step twice *)

Lemma ready_set_instance h t :
  isReadyToRender (set_qrCodeInstance h t) = isReadyToRender t.
Proof. reflexivity. Qed.

Lemma value_set_instance h t :
  qrValueResolved (set_qrCodeInstance h t) = qrValueResolved t.
Proof. reflexivity. Qed.

Lemma tryRender_after_clear (w : World) :
  isReadyToRender (this w) = true -> hasQrValue (this w) = false ->
  tryRenderOrUpdateQr (cleared w) = cleared w.
Proof.
  intros R V. unfold tryRenderOrUpdateQr, cleared.
  cbn [this qrDiv set_this set_qrDiv].
  rewrite ready_set_instance, R, value_set_instance.
  unfold hasQrValue in V. rewrite V. reflexivity.
Qed.

Lemma tryRender_after_create (w : World) :
  isReadyToRender (this w) = true -> hasQrValue (this w) = true ->
  let o := buildOptions (config (this w)) (qrValueResolved (this w)) in
  tryRenderOrUpdateQr (created o w) = emit [Update (nextInstance w) o] (created o w).
Proof.
  intros R V o. unfold tryRenderOrUpdateQr, created.
  cbn [this qrDiv].
  rewrite ready_set_instance, R, value_set_instance.
  unfold hasQrValue in V. rewrite V. reflexivity.
Qed.

Lemma tryRender_after_update (w : World) (d : list nat) (h : nat) :
  isReadyToRender (this w) = true -> qrDiv w = Some d ->
  hasQrValue (this w) = true -> qrCodeInstance (this w) = Some h ->
  let o := buildOptions (config (this w)) (qrValueResolved (this w)) in
  tryRenderOrUpdateQr (emit [Update h o] w) = emit [Update h o] (emit [Update h o] w).
Proof.
  intros R D V I o. unfold tryRenderOrUpdateQr at 1.
  change (this (emit [Update h o] w)) with (this w).
  change (qrDiv (emit [Update h o] w)) with (qrDiv w).
  rewrite R, D, I.
  unfold hasQrValue in V. rewrite V. reflexivity.
Qed.

(** What the second of two successive invocations sends to the renderer:
    an update with the options of the first invocation's create or update,
    nothing when the first sent neither. *)
Definition secondCalls (w : World) : list Effect :=
  match List.filter isRenderCall (emitted tryRenderOrUpdateQr w) with
  | Create h o :: _ => [Update h o]
  | Update h o :: _ => [Update h o]
  | _ => []
  end.

Lemma emit_nil (w : World) : emit [] w = w.
Proof. destruct w. unfold emit. simpl. rewrite app_nil_r. reflexivity. Qed.

Lemma tryRender_twice (w : World) :
  tryRenderOrUpdateQr (tryRenderOrUpdateQr w)
  = emit (secondCalls w) (tryRenderOrUpdateQr w).
Proof.
  unfold secondCalls, emitted.
  destruct (tryRender_step w) as [R|R D|d R D V I|d h R D V I|d R D V I|d h R D V I];
    cbn [log created cleared emit set_qrDiv set_this];
    rewrite ?emitted_id, ?emitted_app; cbn [List.filter isRenderCall];
    rewrite ?emit_nil.
  - apply not_ready_noop, R.
  - unfold tryRenderOrUpdateQr. rewrite R, D. reflexivity.
  - unfold tryRenderOrUpdateQr. rewrite R, D, I.
    unfold hasQrValue in V. rewrite V. reflexivity.
  - apply tryRender_after_clear; assumption.
  - apply tryRender_after_create; assumption.
  - eapply tryRender_after_update; eassumption.
Qed.

Lemma secondCalls_count (w : World) :
  renderCalls (secondCalls w) = renderCalls (emitted tryRenderOrUpdateQr w)
  /\ List.filter isCreate (secondCalls w) = [].
Proof.
  unfold secondCalls, emitted, renderCalls.
  destruct (tryRender_step w); cbn [log created cleared emit set_qrDiv set_this];
    rewrite ?emitted_id, ?emitted_app; split; reflexivity.
Qed.

Lemma emitted_emit (es : list Effect) (w : World) : emitted (emit es) w = es.
Proof. unfold emitted, emit. simpl. apply drop_app_length. Qed.

Lemma emitted_second (w : World) :
  emitted tryRenderOrUpdateQr (tryRenderOrUpdateQr w) = secondCalls w.
Proof.
  unfold emitted at 1. rewrite tryRender_twice. apply (emitted_emit _ (tryRenderOrUpdateQr w)).
Qed.

Lemma renderCalls_app (l k : list Effect) :
  renderCalls (l ++ k) = renderCalls l + renderCalls k.
Proof. unfold renderCalls. rewrite List.filter_app, List.length_app. reflexivity. Qed.

Lemma emitted_twice (w : World) :
  emitted (fun w => tryRenderOrUpdateQr (tryRenderOrUpdateQr w)) w
  = (emitted tryRenderOrUpdateQr w ++ secondCalls w)%list.
Proof.
  unfold emitted at 1. rewrite tryRender_twice.
  cbn [emit log]. rewrite tryRender_log, <- app_assoc. apply drop_app_length.
Qed.

(** The claim of C2 as stated: two successive invocations make exactly one
    create-or-update call, and the second invocation changes nothing. *)
Definition renders_once (w : World) : Prop :=
  renderCalls (emitted (fun w => tryRenderOrUpdateQr (tryRenderOrUpdateQr w)) w) = 1
  /\ tryRenderOrUpdateQr (tryRenderOrUpdateQr w) = tryRenderOrUpdateQr w.

(** C2, as amended: of two successive invocations of the step with no
    state change in between, the second leaves the component state, the
    mount point and the handle as the first left them and never issues a
    create; it is a no-op only when the first issued no create or update
    call, and otherwise issues an update with the same handle and options,
    so the two invocations issue no or two such calls, never exactly one. *)
Theorem render_twice (w : World) :
  let w1 := tryRenderOrUpdateQr w in
  let w2 := tryRenderOrUpdateQr w1 in
  this w2 = this w1 /\ qrDiv w2 = qrDiv w1 /\ nextInstance w2 = nextInstance w1
  /\ emitted tryRenderOrUpdateQr w1 = secondCalls w
  /\ List.filter isCreate (emitted tryRenderOrUpdateQr w1) = []
  /\ renderCalls (emitted tryRenderOrUpdateQr w1) = renderCalls (emitted tryRenderOrUpdateQr w)
  /\ renderCalls (emitted (fun w => tryRenderOrUpdateQr (tryRenderOrUpdateQr w)) w)
     = 2 * renderCalls (emitted tryRenderOrUpdateQr w)
  /\ ~ renders_once w.
Proof.
  intros w1 w2. subst w1 w2.
  destruct (secondCalls_count w) as [C1 C2].
  assert (T : renderCalls (emitted (fun w => tryRenderOrUpdateQr (tryRenderOrUpdateQr w)) w)
              = 2 * renderCalls (emitted tryRenderOrUpdateQr w)).
  { rewrite emitted_twice, renderCalls_app, C1. lia. }
  rewrite emitted_second, tryRender_twice. cbn [emit this qrDiv nextInstance].
  repeat split; try assumption.
  intros [H _]. rewrite T in H. lia.
Qed.

(** The page loaded and mounted, its [.qrcode] element just added to the
    template: ready, and not yet rendered. *)
Definition providedWorld : World :=
  run [EvConnected; EvScriptSettled true; EvRendered; EvTemplate true]
      (newWorld providedConfig).

(** C2 as stated fails: the first invocation creates, the second updates. *)
Lemma renders_once_counterexample :
  emitted tryRenderOrUpdateQr providedWorld
    = [Create 0 (buildOptions providedConfig (JStr "ABC123")); Append 0]
  /\ emitted tryRenderOrUpdateQr (tryRenderOrUpdateQr providedWorld)
    = [Update 0 (buildOptions providedConfig (JStr "ABC123"))]
  /\ renderCalls (emitted (fun w => tryRenderOrUpdateQr (tryRenderOrUpdateQr w)) providedWorld) = 2
  /\ ~ renders_once providedWorld.
Proof.
  repeat split; try reflexivity.
  intros [H _]. vm_compute in H. discriminate.
Qed.

(** *** Invariants of the reachable worlds *)

Definition effectHandle (e : Effect) : option nat :=
  match e with
  | Create h _ | Append h | Update h _ => Some h
  | _ => None
  end.

Definition isLoadScript (e : Effect) : bool :=
  match e with LoadScript => true | _ => false end.

Definition loadCalls (l : list Effect) : nat := List.length (List.filter isLoadScript l).

Definition handleBelow (n : nat) (e : Effect) : Prop :=
  match effectHandle e with Some h => h < n | None => True end.

Record Inv (w : World) : Prop := {
  inv_unloaded :
    qrCodeLibLoaded (this w) = false ->
    renderCalls (log w) = 0 /\ qrCodeInstance (this w) = None;
  inv_pending :
    loadPending w = true -> qrCodeLibLoaded (this w) = false;
  inv_unstarted :
    scriptLoadStarted (this w) = false ->
    qrCodeLibLoaded (this w) = false /\ loadPending w = false /\ loadCalls (log w) = 0;
  inv_started :
    scriptLoadStarted (this w) = true -> loadCalls (log w) = 1;
  inv_handle :
    forall h, qrCodeInstance (this w) = Some h ->
      h < nextInstance w /\ domReady (this w) = true
      /\ exists o, In (Create h o) (log w);
  inv_log : Forall (handleBelow (nextInstance w)) (log w)
}.

Lemma ready_loaded (t : Widget) :
  isReadyToRender t = true -> domReady t = true /\ qrCodeLibLoaded t = true.
Proof.
  unfold isReadyToRender. destruct (domReady t), (qrCodeLibLoaded t); simpl; auto; discriminate.
Qed.

Lemma loadCalls_app (l k : list Effect) : loadCalls (l ++ k) = loadCalls l + loadCalls k.
Proof. unfold loadCalls. rewrite List.filter_app, List.length_app. reflexivity. Qed.

Lemma handleBelow_mono (n m : nat) (l : list Effect) :
  n <= m -> Forall (handleBelow n) l -> Forall (handleBelow m) l.
Proof.
  intros L. apply List.Forall_impl. intros e. unfold handleBelow.
  destruct (effectHandle e); [lia | auto].
Qed.

Lemma Inv_new (c : Config) : Inv (newWorld c).
Proof.
  constructor; simpl; try discriminate; auto.
Qed.

Lemma loadCalls_render (l k : list Effect) :
  loadCalls k = 0 -> loadCalls (l ++ k) = loadCalls l.
Proof. intros H. rewrite loadCalls_app, H. lia. Qed.

Lemma In_log_app (e : Effect) (l k : list Effect) : In e l -> In e (l ++ k).
Proof. intros H. apply in_or_app. left. exact H. Qed.

Lemma Inv_tryRender (w : World) : Inv w -> Inv (tryRenderOrUpdateQr w).
Proof.
  intros [U P N S H L].
  destruct (tryRender_step w) as [R|R D|d R D V I|d h R D V I|d R D V I|d h R D V I];
    try (constructor; assumption);
    destruct (ready_loaded _ R) as [DR LL].
  - (* clear *)
    constructor; cbn [cleared this qrDiv log nextInstance loadPending set_qrDiv set_this
                      set_qrCodeInstance qrCodeLibLoaded qrCodeInstance domReady
                      scriptLoadStarted].
    + intros E. destruct (U E). auto.
    + exact P.
    + exact N.
    + exact S.
    + discriminate.
    + exact L.
  - (* create *)
    constructor; cbn [created this qrDiv log nextInstance loadPending
                      set_qrCodeInstance qrCodeLibLoaded qrCodeInstance domReady
                      scriptLoadStarted].
    + intros E. congruence.
    + exact P.
    + intros E. destruct (N E) as [A [B C]].
      rewrite loadCalls_render; [auto | reflexivity].
    + intros E. rewrite loadCalls_render; [auto | reflexivity].
    + intros h0 [= <-]. split; [lia|]. split; [exact DR|].
      eexists. apply in_or_app. right. left. reflexivity.
    + apply Forall_app. split.
      * apply (handleBelow_mono (nextInstance w)); [lia | exact L].
      * repeat constructor; unfold handleBelow; simpl; lia.
  - (* update *)
    constructor; cbn [emit this qrDiv log nextInstance loadPending].
    + intros E. congruence.
    + exact P.
    + intros E. destruct (N E) as [A [B C]].
      rewrite loadCalls_render; [auto | reflexivity].
    + intros E. rewrite loadCalls_render; [auto | reflexivity].
    + intros h0 E. destruct (H h0 E) as [A [B [o C]]].
      split; [exact A|]. split; [exact B|]. exists o. apply In_log_app, C.
    + apply Forall_app. split; [exact L|].
      repeat constructor. unfold handleBelow. simpl. destruct (H h I) as [A _]. exact A.
Qed.

(** Setting a private field that the invariant does not read. *)
Lemma Inv_frame (w : World) (t : Widget) :
  qrCodeLibLoaded t = qrCodeLibLoaded (this w) ->
  scriptLoadStarted t = scriptLoadStarted (this w) ->
  qrCodeInstance t = qrCodeInstance (this w) ->
  (domReady (this w) = true -> domReady t = true) ->
  Inv w -> Inv (set_this t w).
Proof.
  intros E1 E2 E3 E4 [U P N S H L].
  constructor; cbn [set_this this log nextInstance loadPending];
    rewrite ?E1, ?E2, ?E3; auto.
  intros h I. destruct (H h I) as [A [B C]]. auto.
Qed.

Lemma Inv_emit_console (w : World) (msg : string) :
  Inv w -> Inv (emit [ConsoleError msg] w).
Proof.
  intros [U P N S H L].
  constructor; cbn [emit this log nextInstance loadPending].
  - intros E. destruct (U E) as [A B]. split; [|exact B].
    rewrite renderCalls_app, A. reflexivity.
  - exact P.
  - intros E. destruct (N E) as [A [B C]].
    rewrite loadCalls_render; [auto | reflexivity].
  - intros E. rewrite loadCalls_render; [auto | reflexivity].
  - intros h I. destruct (H h I) as [A [B [o C]]].
    split; [exact A|]. split; [exact B|]. exists o. apply In_log_app, C.
  - apply Forall_app. split; [exact L|]. repeat constructor.
Qed.

Lemma Inv_step (e : Event) (w : World) : Inv w -> Inv (step e w).
Proof.
  intros I. destruct e as [|ok| |d er|p|c|present]; cbn [step].
  - (* connectedCallback *)
    unfold connectedCallback. destruct (scriptLoadStarted (this w)) eqn:St; [exact I|].
    destruct I as [U P N S H L]. destruct (N St) as [N1 [N2 N3]].
    constructor; cbn [emit set_loadPending set_this set_scriptLoadStarted this log
                      nextInstance loadPending qrCodeLibLoaded qrCodeInstance domReady
                      scriptLoadStarted].
    + intros E. destruct (U E) as [A B]. split; [|exact B].
      rewrite renderCalls_app, A. reflexivity.
    + intros _. exact N1.
    + discriminate.
    + intros _. rewrite loadCalls_app, N3. reflexivity.
    + intros h E. destruct (H h E) as [A [B [o C]]].
      split; [exact A|]. split; [exact B|]. exists o. apply In_log_app, C.
    + apply Forall_app. split; [exact L|]. repeat constructor.
  - (* the load settles *)
    destruct (loadPending w) eqn:Pe; [|exact I].
    assert (I1 : Inv (set_loadPending false w)).
    { destruct I as [U P N S H L].
      constructor; cbn [set_loadPending this log nextInstance loadPending].
      - exact U.
      - discriminate.
      - intros E. destruct (N E) as [A [B C]]. auto.
      - exact S.
      - exact H.
      - exact L. }
    destruct ok.
    + unfold scriptLoaded. apply Inv_tryRender.
      assert (St : scriptLoadStarted (this w) = true).
      { destruct (scriptLoadStarted (this w)) eqn:St; [reflexivity|].
        destruct I as [U P N S H L]. destruct (N St) as [_ [B _]]. congruence. }
      destruct I as [U P N S H L].
      constructor; cbn [set_this set_qrCodeLibLoaded set_loadPending this log nextInstance
                        loadPending qrCodeLibLoaded qrCodeInstance domReady
                        scriptLoadStarted].
      * discriminate.
      * discriminate.
      * intros E. congruence.
      * exact S.
      * exact H.
      * exact L.
    + unfold scriptLoadFailed. apply Inv_emit_console, I1.
  - (* renderedCallback *)
    unfold renderedCallback. apply Inv_tryRender.
    destruct (negb (domReady (this w))); [|exact I].
    apply Inv_frame; auto.
  - (* wiredRecord *)
    unfold wiredRecord. destruct d as [d|].
    + apply Inv_tryRender, Inv_frame; auto.
    + destruct er as [er|]; [|exact I].
      apply Inv_emit_console, Inv_frame; auto.
  - (* wiredPageRef *)
    unfold wiredPageRef.
    destruct (usesRecordField (config (this w))); [exact I|].
    destruct (negb (isUrlParameterSource (config (this w)))).
    + apply Inv_frame; auto.
    + apply Inv_tryRender, Inv_frame; auto.
  - apply Inv_frame; auto.
  - destruct I as [U P N S H L].
    destruct present; [destruct (qrDiv w)|]; constructor; auto.
Qed.

Lemma Inv_run (es : list Event) (w : World) : Inv w -> Inv (run es w).
Proof.
  revert w. induction es as [|e es IH]; intros w I; simpl; [exact I|].
  apply IH, Inv_step, I.
Qed.

Lemma Inv_reachable (c : Config) (es : list Event) : Inv (run es (newWorld c)).
Proof. apply Inv_run, Inv_new. Qed.

(** *** Failure of the script load *)

(** The component after its one load has failed: started, settled, not loaded. *)
Definition Disabled (w : World) : Prop :=
  scriptLoadStarted (this w) = true /\ loadPending w = false
  /\ qrCodeLibLoaded (this w) = false.

Lemma not_loaded_not_ready (t : Widget) :
  qrCodeLibLoaded t = false -> isReadyToRender t = false.
Proof.
  intros H. unfold isReadyToRender. rewrite H. destruct (domReady t); reflexivity.
Qed.

Lemma Disabled_tryRender (w : World) : Disabled w -> tryRenderOrUpdateQr w = w.
Proof. intros [_ [_ L]]. apply not_ready_noop, not_loaded_not_ready, L. Qed.

Lemma Disabled_frame (w : World) (t : Widget) :
  qrCodeLibLoaded t = qrCodeLibLoaded (this w) ->
  scriptLoadStarted t = scriptLoadStarted (this w) ->
  Disabled w -> Disabled (set_this t w).
Proof.
  intros E1 E2 [A [B C]]. unfold Disabled. cbn [set_this this loadPending].
  rewrite E1, E2. auto.
Qed.

Lemma Disabled_step (e : Event) (w : World) : Disabled w -> Disabled (step e w).
Proof.
  intros D. pose proof D as [A [B C]].
  destruct e as [|ok| |d er|p|c|present]; cbn [step].
  - unfold connectedCallback. rewrite A. exact D.
  - rewrite B. exact D.
  - unfold renderedCallback.
    assert (D1 : Disabled (if negb (domReady (this w))
                           then set_this (set_domReady true (this w)) w else w)).
    { destruct (negb (domReady (this w))); [apply Disabled_frame; auto | exact D]. }
    rewrite (Disabled_tryRender _ D1). exact D1.
  - unfold wiredRecord. destruct d as [d|].
    + assert (D1 : Disabled (set_this (set_record (Some d) None (this w)) w))
        by (apply Disabled_frame; auto).
      rewrite (Disabled_tryRender _ D1). exact D1.
    + destruct er as [er|]; [|exact D]. exact D.
  - unfold wiredPageRef.
    destruct (usesRecordField (config (this w))); [exact D|].
    destruct (negb (isUrlParameterSource (config (this w)))).
    + apply Disabled_frame; auto.
    + match goal with |- Disabled (tryRenderOrUpdateQr ?x) =>
        assert (D1 : Disabled x) by (apply Disabled_frame; auto);
        rewrite (Disabled_tryRender _ D1); exact D1
      end.
  - exact D.
  - destruct present; [destruct (qrDiv w)|]; exact D.
Qed.

Lemma Disabled_run (es : list Event) (w : World) : Disabled w -> Disabled (run es w).
Proof.
  revert w. induction es as [|e es IH]; intros w D; simpl; [exact D|].
  apply IH, Disabled_step, D.
Qed.

(** C9: when the script load fails the failure is logged and nothing else
    happens; whatever events follow, the script never counts as loaded,
    readiness never holds, no create or update call is ever in the log, no
    handle exists, and the load is not started again.  Every handler is a
    total function of the world: none raises. *)
Theorem script_load_failure (c : Config) (es es' : list Event) :
  let w := run es (newWorld c) in
  let w1 := step (EvScriptSettled false) w in
  let w2 := run es' w1 in
  loadPending w = true ->
  emitted (step (EvScriptSettled false)) w = [ConsoleError "Error loading qr-code-styling:"]
  /\ this w1 = this w
  /\ qrCodeLibLoaded (this w2) = false
  /\ isReadyToRender (this w2) = false
  /\ renderCalls (log w2) = 0
  /\ qrCodeInstance (this w2) = None
  /\ loadCalls (log w2) = 1.
Proof.
  intros w w1 w2 Pe.
  assert (I : Inv w) by apply Inv_reachable.
  assert (E1 : w1 = emit [ConsoleError "Error loading qr-code-styling:"]
                      (set_loadPending false w)).
  { subst w1. cbn [step]. rewrite Pe. reflexivity. }
  assert (D1 : Disabled w1).
  { rewrite E1. unfold Disabled. cbn [emit set_loadPending this loadPending].
    destruct I as [U P N S H L]. split; [|split; [reflexivity | apply P, Pe]].
    destruct (scriptLoadStarted (this w)) eqn:St; [reflexivity|].
    destruct (N eq_refl) as [_ [B _]]. congruence. }
  assert (D2 : Disabled w2) by (apply Disabled_run, D1).
  assert (I2 : Inv w2) by (apply Inv_run, Inv_step, I).
  destruct D2 as [A [B C]]. destruct I2 as [U P N S H L].
  destruct (U C) as [U1 U2].
  split.
  { unfold emitted. fold w1. rewrite E1. cbn [emit set_loadPending log].
    apply drop_app_length. }
  split; [rewrite E1; reflexivity|].
  split; [exact C|].
  split; [apply not_loaded_not_ready, C|].
  split; [exact U1|].
  split; [exact U2 | apply S, A].
Qed.

Lemma script_load_failure_witness :
  let w := run [EvConnected; EvTemplate true; EvRendered] (newWorld providedConfig) in
  let later := [EvConnected; EvRendered; EvScriptSettled true; EvPageRef None;
                EvSetConfig accountConfig; EvRecord (Some accountRecord) None;
                EvRendered] in
  loadPending w = true
  /\ renderCalls (log (run later (step (EvScriptSettled false) w))) = 0
  /\ loadCalls (log (run later (step (EvScriptSettled false) w))) = 1.
Proof.
  intros w later. split; [reflexivity|].
  destruct (script_load_failure providedConfig
              [EvConnected; EvTemplate true; EvRendered] later eq_refl)
    as [_ [_ [_ [_ [H1 [_ H2]]]]]].
  split; [exact H1 | exact H2].
Defined.

(** *** The render handle *)

Lemma handle_ready (w : World) (h : nat) :
  Inv w -> qrCodeInstance (this w) = Some h ->
  (usesRecordField (config (this w)) = true -> record (this w) <> None) ->
  isReadyToRender (this w) = true.
Proof.
  intros [U P N S H L] I M.
  destruct (H h I) as [_ [DR _]].
  assert (LL : qrCodeLibLoaded (this w) = true).
  { destruct (qrCodeLibLoaded (this w)) eqn:E; [reflexivity|].
    destruct (U eq_refl) as [_ B]. congruence. }
  unfold isReadyToRender. rewrite DR, LL. simpl.
  destruct (usesRecordField (config (this w))); [|reflexivity].
  destruct (record (this w)); [reflexivity|]. exfalso. apply M; reflexivity.
Qed.

Lemma no_create_no_handle (w : World) :
  Inv w -> List.filter isCreate (log w) = [] -> qrCodeInstance (this w) = None.
Proof.
  intros [U P N S H L] F.
  destruct (qrCodeInstance (this w)) as [h|] eqn:I; [|reflexivity].
  destruct (H h eq_refl) as [_ [_ [o C]]].
  assert (X : In (Create h o) (List.filter isCreate (log w))).
  { apply List.filter_In. split; [exact C | reflexivity]. }
  rewrite F in X. destruct X.
Qed.

Lemma handleBelow_In (n : nat) (l : list Effect) (e : Effect) (h : nat) :
  Forall (handleBelow n) l -> In e l -> effectHandle e = Some h -> h < n.
Proof.
  intros F I E. rewrite List.Forall_forall in F. specialize (F e I).
  unfold handleBelow in F. rewrite E in F. exact F.
Qed.

(** C4, as amended: the render handle is null until the first create, is
    set by the create, and is kept, with no new create, by every update;
    once a render has occurred and the resolved value is empty, the step,
    provided it passes its gates (the mount point is in the template and,
    in record-field mode, a snapshot is held), empties the mount point and
    nulls the handle without calling the renderer; and with no handle a
    non-empty value makes the step issue a create with a handle never used
    before, not an update. *)
Theorem render_handle_lifecycle (c : Config) (es : list Event) :
  let w := run es (newWorld c) in
  let w1 := tryRenderOrUpdateQr w in
  qrCodeInstance (this (newWorld c)) = None
  /\ (List.filter isCreate (log w) = [] -> qrCodeInstance (this w) = None)
  /\ (forall h o, In (Create h o) (emitted tryRenderOrUpdateQr w) ->
        qrCodeInstance (this w) = None /\ qrCodeInstance (this w1) = Some h
        /\ qrDiv w1 = Some [h])
  /\ (forall h o, In (Update h o) (emitted tryRenderOrUpdateQr w) ->
        qrCodeInstance (this w) = Some h /\ qrCodeInstance (this w1) = Some h
        /\ qrDiv w1 = qrDiv w
        /\ List.filter isCreate (emitted tryRenderOrUpdateQr w) = [])
  /\ (forall h, qrCodeInstance (this w) = Some h ->
        hasQrValue (this w) = false ->
        qrDiv w <> None ->
        (usesRecordField (config (this w)) = true -> record (this w) <> None) ->
        qrCodeInstance (this w1) = None /\ qrDiv w1 = Some []
        /\ emitted tryRenderOrUpdateQr w = [])
  /\ (qrCodeInstance (this w) = None ->
        hasQrValue (this w) = true ->
        qrDiv w <> None ->
        isReadyToRender (this w) = true ->
        emitted tryRenderOrUpdateQr w
          = [Create (nextInstance w)
               (buildOptions (config (this w)) (qrValueResolved (this w)));
             Append (nextInstance w)]
        /\ qrCodeInstance (this w1) = Some (nextInstance w)
        /\ forall e h, In e (log w) -> effectHandle e = Some h -> h <> nextInstance w).
Proof.
  intros w w1.
  assert (I : Inv w) by apply Inv_reachable.
  split; [reflexivity|].
  split; [apply no_create_no_handle, I|].
  split; [|split; [|split]].
  - intros h o. subst w1. unfold emitted.
    destruct (tryRender_step w) as [R|R D|d R D V J|d h' R D V J|d R D V J|d h' R D V J];
      cbn [log created cleared emit set_qrDiv set_this];
      rewrite ?emitted_id, ?emitted_app; simpl; try (intros []; fail).
    + intros [[= <- _]|[[=]|[]]]. auto.
    + intros [[=]|[]].
  - intros h o. subst w1. unfold emitted.
    destruct (tryRender_step w) as [R|R D|d R D V J|d h' R D V J|d R D V J|d h' R D V J];
      cbn [log created cleared emit set_qrDiv set_this];
      rewrite ?emitted_id, ?emitted_app; simpl; try (intros []; fail).
    + intros [[=]|[[=]|[]]].
    + intros [[= <- _]|[]]. auto.
  - intros h J V D M.
    pose proof (handle_ready w h I J M) as R.
    subst w1. unfold emitted, tryRenderOrUpdateQr. rewrite R.
    destruct (qrDiv w) as [d|]; [|contradiction]. simpl.
    unfold hasQrValue in V. rewrite V, J. simpl.
    rewrite emitted_id. auto.
  - intros J V D R.
    subst w1. unfold emitted, tryRenderOrUpdateQr. rewrite R.
    destruct (qrDiv w) as [d|]; [|contradiction]. simpl.
    unfold hasQrValue in V. rewrite V, J. simpl.
    rewrite emitted_app. split; [reflexivity|]. split; [reflexivity|].
    intros e h X E. destruct I as [_ _ _ _ _ L].
    pose proof (handleBelow_In _ _ _ _ L X E). lia.
Qed.

(** The provided value is rendered, cleared by the owner, and set again. *)
Definition renderedThenEmptied : list Event :=
  [EvConnected; EvScriptSettled true; EvTemplate true; EvRendered;
   EvSetConfig (set_providedValue (JStr "") providedConfig)].

Lemma render_handle_lifecycle_witness :
  let w := run renderedThenEmptied (newWorld providedConfig) in
  let w1 := tryRenderOrUpdateQr w in
  let w2 := step (EvSetConfig providedConfig) w1 in
  qrCodeInstance (this w) = Some 0
  /\ (qrCodeInstance (this w1) = None /\ qrDiv w1 = Some [] /\ emitted tryRenderOrUpdateQr w = [])
  /\ emitted tryRenderOrUpdateQr w2
     = [Create 1 (buildOptions providedConfig (JStr "ABC123")); Append 1].
Proof.
  intros w w1 w2. split; [reflexivity|]. split.
  - destruct (render_handle_lifecycle providedConfig renderedThenEmptied)
      as [_ [_ [_ [_ [T _]]]]].
    apply (T 0); [reflexivity | reflexivity | discriminate | discriminate].
  - destruct (render_handle_lifecycle providedConfig
                (renderedThenEmptied ++ [EvRendered; EvSetConfig providedConfig]))
      as [_ [_ [_ [_ [_ F]]]]].
    apply F; [reflexivity | reflexivity | discriminate | reflexivity].
Defined.

(** The teardown of C4 as stated, with no proviso: whenever a render has
    occurred and the resolved value is empty, the step nulls the handle. *)
Definition tears_down (w : World) : Prop :=
  forall h, qrCodeInstance (this w) = Some h -> hasQrValue (this w) = false ->
    qrCodeInstance (this (tryRenderOrUpdateQr w)) = None.

(** The provided value is rendered and then cleared, and the same render
    pass takes the [.qrcode] element out of the template. *)
Definition hiddenWorld : World :=
  run (renderedThenEmptied ++ [EvTemplate false]) (newWorld providedConfig).

(** The provided value is rendered, and the owner then configures the
    component for a record field: no snapshot has arrived yet. *)
Definition switchedWorld : World :=
  run [EvConnected; EvScriptSettled true; EvTemplate true; EvRendered;
       EvSetConfig accountConfig]
      (newWorld providedConfig).

(** C4 as stated fails where a gate stops the step.  With the mount point
    out of the template, and in record-field mode before the snapshot, the
    value is empty after a render, the step changes nothing and the handle
    is kept; the next non-empty value is then an update of that handle,
    not a fresh create. *)
Lemma tears_down_counterexample :
  (qrCodeInstance (this hiddenWorld) = Some 0
   /\ hasQrValue (this hiddenWorld) = false
   /\ tryRenderOrUpdateQr hiddenWorld = hiddenWorld
   /\ emitted tryRenderOrUpdateQr
        (run [EvTemplate true; EvSetConfig providedConfig] hiddenWorld)
      = [Update 0 (buildOptions providedConfig (JStr "ABC123"))]
   /\ ~ tears_down hiddenWorld)
  /\ (qrCodeInstance (this switchedWorld) = Some 0
      /\ hasQrValue (this switchedWorld) = false
      /\ tryRenderOrUpdateQr switchedWorld = switchedWorld
      /\ emitted (step (EvRecord (Some accountRecord) None)) switchedWorld
         = [Update 0 (buildOptions accountConfig (JStr "CD451796"))]
      /\ ~ tears_down switchedWorld).
Proof.
  split; (split; [reflexivity|]); (split; [reflexivity|]);
    (split; [reflexivity|]); (split; [reflexivity|]);
    intros T; specialize (T 0 eq_refl eq_refl); vm_compute in T; discriminate T.
Qed.

(** *** A record fetch that fails *)

(** What the error branch of the record wire does, in any world: it stores
    the error, drops the snapshot and logs; it does not invoke the
    evaluate-and-render step, so handle and mount point stay as they were,
    and in record-field mode a later invocation of the step finds the
    component not ready and does nothing. *)
Lemma wiredRecord_error (w : World) (e : JsError) :
  let w1 := wiredRecord None (Some e) w in
  record (this w1) = None /\ error (this w1) = Some e
  /\ emitted (wiredRecord None (Some e)) w = [ConsoleError e]
  /\ qrCodeInstance (this w1) = qrCodeInstance (this w)
  /\ qrDiv w1 = qrDiv w
  /\ hasQrValue (this w1) = (if usesRecordField (config (this w)) then false
                             else hasQrValue (this w))
  /\ (usesRecordField (config (this w)) = true -> tryRenderOrUpdateQr w1 = w1).
Proof.
  intros w1. subst w1. unfold wiredRecord.
  cbn [emit set_this set_record this qrDiv record error qrCodeInstance log].
  repeat split.
  - unfold emitted. cbn [emit set_this log]. apply drop_app_length.
  - unfold hasQrValue, qrValueResolved. cbn [config set_record record urlParamValue].
    destruct (usesRecordField (config (this w))); reflexivity.
  - intros U. apply not_ready_noop. unfold isReadyToRender.
    cbn [this emit set_this set_record domReady qrCodeLibLoaded config record].
    rewrite U. destruct (negb (domReady (this w)) || negb (qrCodeLibLoaded (this w))); reflexivity.
Qed.

(** A record page after its first render. *)
Definition recordWorld : World :=
  run [EvConnected; EvScriptSettled true; EvTemplate true; EvRendered;
       EvRecord (Some accountRecord) None]
      (newWorld accountConfig).

(** C3, the code at the failing input: after a render in record-field
    mode, a fetch error issues no render call, stores the error and drops
    the snapshot, so that there is no value left; but the artifact stays in
    the mount point and the handle stays set, also after a further render
    pass.  The next successful fetch updates that same handle. *)
Lemma record_error_keeps_artifact :
  let w := recordWorld in
  let w1 := step (EvRecord None (Some "fetch failed")) w in
  let w2 := step EvRendered w1 in
  qrCodeInstance (this w) = Some 0 /\ qrDiv w = Some [0]
  /\ emitted (step (EvRecord None (Some "fetch failed"))) w = [ConsoleError "fetch failed"]
  /\ record (this w1) = None /\ error (this w1) = Some "fetch failed"
  /\ hasQrValue (this w1) = false
  /\ qrCodeInstance (this w1) = Some 0 /\ qrDiv w1 = Some [0]
  /\ w2 = w1
  /\ emitted (step (EvRecord (Some accountRecord) None)) w2
     = [Update 0 (buildOptions accountConfig (JStr "CD451796"))].
Proof. vm_compute. repeat split. Qed.

(** ** Scenarios *)

(** A provided value, DOM mounted, script loaded: one create, with the
    value as data and the highest error-correction level. *)
Example scenario_provided_value :
  let w := run [EvConnected; EvTemplate true; EvRendered; EvScriptSettled true]
               (newWorld providedConfig) in
  List.filter isRenderCall (log w) = [Create 0 (buildOptions providedConfig (JStr "ABC123"))]
  /\ data (buildOptions providedConfig (JStr "ABC123")) = JStr "ABC123"
  /\ errorCorrectionLevel (qrOptions (buildOptions providedConfig (JStr "ABC123"))) = "H".
Proof. repeat split. Qed.

Definition urlConfig : Config :=
  set_value_inputs (Some "URL Parameter") JUndefined providedConfig.

Definition pageWith (v : string) : option PageRef :=
  Some {| state := Some {[ "qrv" := JStr v ]} |}.

(** The URL parameter arrives after mount and load: one create; a later
    navigation changing it: one update of the same handle, no new create. *)
Example scenario_url_parameter :
  let w := run [EvConnected; EvTemplate true; EvRendered; EvScriptSettled true]
               (newWorld urlConfig) in
  let w1 := step (EvPageRef (pageWith "XYZ")) w in
  let w2 := step (EvPageRef (pageWith "XYZ2")) w1 in
  log w = [LoadScript]
  /\ emitted (step (EvPageRef (pageWith "XYZ"))) w
     = [Create 0 (buildOptions urlConfig (JStr "XYZ")); Append 0]
  /\ emitted (step (EvPageRef (pageWith "XYZ2"))) w1
     = [Update 0 (buildOptions urlConfig (JStr "XYZ2"))].
Proof. vm_compute. repeat split. Qed.

(** ** Where the earlier iterations differ *)

(** The original qualifier reads a blank field name as [Id] and never
    returns null for it; on any other field name it agrees with the
    current one. *)
Lemma Original_qualifier (c : Config) (fieldName : option string) :
  Original.getQualifiedFieldName c fieldName =
    if truthy_str fieldName
    then match objectApiName c with
         | Some o => if String.eqb o "" then None
                     else Some (o ++ "." ++ trim (default "" fieldName))
         | None => None
         end
    else qualify (objectApiName c) (Some "Id").
Proof.
  unfold Original.getQualifiedFieldName, qualify.
  destruct fieldName as [f|]; simpl.
  - destruct (String.eqb_spec f "") as [->|N]; simpl; [|reflexivity].
    destruct (objectApiName c) as [o|]; [|reflexivity].
    destruct (String.eqb_spec o ""), (decide _) as [[D|D]|D];
      try reflexivity; try discriminate; try contradiction.
    exfalso. apply D. right. assumption.
  - destruct (objectApiName c) as [o|]; [|reflexivity].
    destruct (String.eqb_spec o ""), (decide _) as [[D|D]|D];
      try reflexivity; try discriminate; try contradiction.
    exfalso. apply D. right. assumption.
Qed.

Example Original_qualifier_blank :
  Original.getQualifiedFieldName accountConfig None = Some "Account.Id"
  /\ getQualifiedFieldName accountConfig None = None.
Proof. split; reflexivity. Qed.

(** Whenever the original builds its options, the corner types are the
    ones of the current builder, except that an empty style string stays
    the empty string; with a style that is absent it builds none. *)
Lemma Original_corner_types (c : Config) (o : Options) :
  Original.generateQRCode_options c = Some o ->
  exists square dot,
    cornersSquareStyle c = JStr square /\ cornersDotStyle c = JStr dot
    /\ type (cornersSquareOptions o)
       = (if String.eqb square "" then JStr "" else styleType (JStr square))
    /\ type (cornersDotOptions o)
       = (if String.eqb dot "" then JStr "" else styleType (JStr dot)).
Proof.
  unfold Original.generateQRCode_options, Original.cornerType, Original.callToLowerCase.
  destruct (qrCodeDotsType c); [|discriminate].
  destruct (cornersSquareStyle c) as [| |b|x|sq]; simpl; try discriminate;
  destruct (cornersDotStyle c) as [| |b'|x'|dt]; simpl; try discriminate;
    try (destruct (String.eqb sq "None"); discriminate).
  intros H. exists sq, dt. split; [reflexivity|]. split; [reflexivity|].
  assert (K : forall u, (if String.eqb u "None" then Some JUndefined
                         else Some (JStr (toLowerCase u)))
                        = Some (if String.eqb u "" then JStr "" else styleType (JStr u))).
  { intros u. unfold styleType.
    destruct (String.eqb_spec u "None") as [->|N]; [reflexivity|].
    destruct (String.eqb_spec u "") as [->|E]; [reflexivity|].
    destruct (decide (u = "None")); [contradiction|].
    destruct (decide (u = "")); [contradiction|]. reflexivity. }
  rewrite !K in H. injection H as <-. simpl. split; reflexivity.
Qed.

Example Original_absent_style_throws :
  Original.generateQRCode_options defaultConfig = None.
Proof. reflexivity. Qed.

(** The logo part of the original options is that of the current builder. *)
Lemma Original_logo_options (c : Config) (o : Options) (d : JsValue) :
  Original.generateQRCode_options c = Some o ->
  image o = image (buildOptions c d)
  /\ imageOptions o = imageOptions (buildOptions c d).
Proof.
  unfold Original.generateQRCode_options.
  destruct (qrCodeDotsType c); [|discriminate].
  destruct (Original.cornerType (cornersSquareStyle c)); [|discriminate].
  destruct (Original.cornerType (cornersDotStyle c)); [|discriminate].
  intros [= <-]. split; reflexivity.
Qed.

(** The original title ignores the display switch and the static title. *)
Example Original_title_no_record :
  Original.title (newWidget providedConfig) = Some (JStr "QR Code")
  /\ title (newWidget providedConfig) = JNull.
Proof. split; reflexivity. Qed.

(** The static-value iteration requires a static value for readiness. *)
Lemma StaticValue_isReadyToRender (t : Widget) :
  StaticValue.isReadyToRender t =
    domReady t && qrCodeLibLoaded t
    && (if usesRecordField (config t) then snapshotHeld t
        else truthy (StaticValue.qrCodeStaticValue (config t))).
Proof.
  unfold StaticValue.isReadyToRender, snapshotHeld.
  destruct (domReady t), (qrCodeLibLoaded t), (usesRecordField (config t)); reflexivity.
Qed.

(** The static-value iteration never drops a handle: with the value gone
    it leaves the artifact in place. *)
Lemma StaticValue_keeps_handle (w : World) :
  qrCodeInstance (this w) <> None ->
  qrCodeInstance (this (StaticValue.tryRenderOrUpdateQr w)) = qrCodeInstance (this w)
  /\ qrDiv (StaticValue.tryRenderOrUpdateQr w) = qrDiv w.
Proof.
  intros H. unfold StaticValue.tryRenderOrUpdateQr.
  destruct (negb (StaticValue.isReadyToRender (this w))); [auto|].
  destruct (negb (truthy (StaticValue.qrValueResolved (this w)))); [auto|].
  destruct (qrDiv w) as [d|] eqn:D; [|auto].
  destruct (qrCodeInstance (this w)) as [h|] eqn:I; [|contradiction].
  cbn [emit this qrDiv]. rewrite I, D. auto.
Qed.

(** * Further properties of the component *)

(** ** What the evaluate-and-render step writes *)

Lemma tryRender_writes (w : World) :
  let w1 := tryRenderOrUpdateQr w in
  config (this w1) = config (this w)
  /\ record (this w1) = record (this w)
  /\ error (this w1) = error (this w)
  /\ urlParamValue (this w1) = urlParamValue (this w)
  /\ qrCodeLibLoaded (this w1) = qrCodeLibLoaded (this w)
  /\ domReady (this w1) = domReady (this w)
  /\ scriptLoadStarted (this w1) = scriptLoadStarted (this w)
  /\ loadPending w1 = loadPending w
  /\ qrValueResolved (this w1) = qrValueResolved (this w).
Proof.
  intros w1. subst w1. destruct (tryRender_step w); repeat split; reflexivity.
Qed.

(** The step writes the render handle, the mount point and the log, and
    nothing else: configuration, snapshot, stored error, cached URL
    parameter, the readiness flags and the pending load are as before, and
    so are the resolved value, the title and readiness; the log only grows. *)
Theorem tryRender_frame (w : World) :
  let w1 := tryRenderOrUpdateQr w in
  config (this w1) = config (this w)
  /\ record (this w1) = record (this w)
  /\ error (this w1) = error (this w)
  /\ urlParamValue (this w1) = urlParamValue (this w)
  /\ qrCodeLibLoaded (this w1) = qrCodeLibLoaded (this w)
  /\ domReady (this w1) = domReady (this w)
  /\ scriptLoadStarted (this w1) = scriptLoadStarted (this w)
  /\ loadPending w1 = loadPending w
  /\ qrValueResolved (this w1) = qrValueResolved (this w)
  /\ title (this w1) = title (this w)
  /\ isReadyToRender (this w1) = isReadyToRender (this w)
  /\ log w1 = (log w ++ emitted tryRenderOrUpdateQr w)%list.
Proof.
  intros w1. subst w1.
  destruct (tryRender_writes w) as [A [B [C [D [E [F [G [H I]]]]]]]].
  repeat split; try assumption.
  - destruct (tryRender_step w); reflexivity.
  - destruct (tryRender_step w); reflexivity.
  - apply tryRender_log.
Qed.

Lemma tryRender_value (w : World) :
  qrValueResolved (this (tryRenderOrUpdateQr w)) = qrValueResolved (this w).
Proof. destruct (tryRender_step w); reflexivity. Qed.

Lemma tryRender_config (w : World) :
  config (this (tryRenderOrUpdateQr w)) = config (this w).
Proof. destruct (tryRender_step w); reflexivity. Qed.

(** ** Invariants, by the operations the handlers are made of *)

Section Reachable.

Variable P : World -> Prop.

Hypothesis P_new : forall c, P (newWorld c).
Hypothesis P_render : forall w, P w -> P (tryRenderOrUpdateQr w).
Hypothesis P_this :
  forall w t, P w -> qrCodeInstance t = qrCodeInstance (this w) -> P (set_this t w).
Hypothesis P_load : forall w, P w -> P (emit [LoadScript] w).
Hypothesis P_console : forall w msg, P w -> P (emit [ConsoleError msg] w).
Hypothesis P_pending : forall w b, P w -> P (set_loadPending b w).
Hypothesis P_unmount : forall w, P w -> P (set_qrDiv None w).
Hypothesis P_mount : forall w, P w -> P (set_qrDiv (Some []) w).

Lemma step_preserves (e : Event) (w : World) : P w -> P (step e w).
Proof.
  intros H. destruct e as [|ok| |d er|p|c|present]; cbn [step].
  - unfold connectedCallback. destruct (scriptLoadStarted (this w)); [exact H|].
    apply P_load, P_pending, P_this; [exact H | reflexivity].
  - destruct (loadPending w); [|exact H]. destruct ok.
    + unfold scriptLoaded. apply P_render, P_this; [apply P_pending, H | reflexivity].
    + unfold scriptLoadFailed. apply P_console, P_pending, H.
  - unfold renderedCallback. apply P_render.
    destruct (negb (domReady (this w))); [|exact H].
    apply P_this; [exact H | reflexivity].
  - unfold wiredRecord. destruct d as [d|].
    + apply P_render, P_this; [exact H | reflexivity].
    + destruct er as [er|]; [|exact H].
      apply P_console, P_this; [exact H | reflexivity].
  - unfold wiredPageRef. destruct (usesRecordField (config (this w))); [exact H|].
    destruct (negb (isUrlParameterSource (config (this w)))).
    + apply P_this; [exact H | reflexivity].
    + apply P_render, P_this; [exact H | reflexivity].
  - apply P_this; [exact H | reflexivity].
  - destruct present; [destruct (qrDiv w); [exact H | apply P_mount, H] | apply P_unmount, H].
Qed.

Lemma run_preserves (es : list Event) (w : World) : P w -> P (run es w).
Proof.
  revert w. induction es as [|e es IH]; intros w H; simpl; [exact H|].
  apply IH, step_preserves, H.
Qed.

Lemma reachable_invariant (c : Config) (es : list Event) : P (run es (newWorld c)).
Proof. apply run_preserves, P_new. Qed.

End Reachable.

(** ** The script is requested at most once *)


(** ** The mount point holds at most the one live artifact *)

Definition mountConsistent (w : World) : Prop :=
  match qrDiv w with
  | None => True
  | Some d => d = [] \/ exists h, d = [h] /\ qrCodeInstance (this w) = Some h
  end.

(** Whatever happens, the mount point is empty or holds exactly one
    artifact, the one the render handle refers to: the step empties it
    before it appends a new artifact and when it drops the handle. *)
Theorem mount_holds_live_artifact (c : Config) (es : list Event) :
  mountConsistent (run es (newWorld c)).
Proof.
  apply reachable_invariant; unfold mountConsistent.
  - intros c0. exact I.
  - intros w H. destruct (tryRender_step w) as [R|R D|d R D V J|d h R D V J|d R D V J|d h R D V J];
      try exact H; cbn [cleared created emit set_qrDiv set_this qrDiv this
                        set_qrCodeInstance qrCodeInstance].
    + left. reflexivity.
    + right. eexists. split; reflexivity.
  - intros w t H E. cbn [set_this qrDiv this]. rewrite E. exact H.
  - intros w H. exact H.
  - intros w msg H. exact H.
  - intros w b H. exact H.
  - intros w H. exact I.
  - intros w H. left. reflexivity.
Qed.

(** ** What the renderer is asked to draw *)

(** A create or update call that carries a non-empty value and the highest
    error-correction level. *)
Definition drawsValue (e : Effect) : Prop :=
  match e with
  | Create _ o | Update _ o =>
      truthy (data o) = true /\ errorCorrectionLevel (qrOptions o) = "H"
  | _ => True
  end.

Lemma drawsValue_built (c : Config) (v : JsValue) (h : nat) :
  truthy v = true ->
  drawsValue (Create h (buildOptions c v)) /\ drawsValue (Update h (buildOptions c v)).
Proof. intros T. simpl. auto. Qed.

(** Every create and every update the component ever issues carries a
    non-empty value as data, and error-correction level H: the renderer is
    never asked to draw an empty value. *)
Theorem render_calls_draw_value (c : Config) (es : list Event) :
  Forall drawsValue (log (run es (newWorld c))).
Proof.
  apply reachable_invariant.
  - intros c0. constructor.
  - intros w H.
    destruct (tryRender_step w) as [R|R D|d R D V J|d h R D V J|d R D V J|d h R D V J];
      try exact H; cbn [created emit log]; apply Forall_app; (split; [exact H|]);
      unfold hasQrValue in V;
      destruct (drawsValue_built (config (this w)) (qrValueResolved (this w))
                  (nextInstance w) V) as [A B].
    + constructor; [exact A|]. constructor; [exact I | constructor].
    + constructor; [|constructor]. simpl. auto.
  - intros w t H E. exact H.
  - intros w H. cbn [emit log]. apply Forall_app. split; [exact H|]. repeat constructor.
  - intros w msg H. cbn [emit log]. apply Forall_app. split; [exact H|]. repeat constructor.
  - intros w b H. exact H.
  - intros w H. exact H.
  - intros w H. exact H.
Qed.

(** ** Calls go to the instance created last *)







(** ** Navigation events *)

Lemma emitted_render_data (w : World) (e : Effect) :
  In e (emitted tryRenderOrUpdateQr w) ->
  match e with
  | Create _ o | Update _ o =>
      o = buildOptions (config (this w)) (qrValueResolved (this w))
  | _ => True
  end.
Proof.
  unfold emitted.
  destruct (tryRender_step w); cbn [created cleared emit log set_qrDiv set_this];
    rewrite ?emitted_id, ?emitted_app; simpl; intros X;
    repeat (destruct X as [<-|X]; [simpl; auto|]); destruct X.
Qed.

(** After a navigation event the resolved value is: in record-field mode
    what it was (the event is ignored); with the URL-parameter source the
    page state's value at the trimmed parameter name (default [qrv]), null
    when the page has none or an empty one, and null when the configured
    name is all white space; otherwise the provided value.  With the
    provided-value source the cache is reset and the step is not invoked. *)
Theorem wiredPageRef_resolves (pageRef : option PageRef) (w : World) :
  let c := config (this w) in
  let key := effectiveUrlParamName c in
  let w1 := wiredPageRef pageRef w in
  config (this w1) = c
  /\ qrValueResolved (this w1) =
       (if usesRecordField c then qrValueResolved (this w)
        else if isUrlParameterSource c then
          if String.eqb key "" then JNull else js_or (pageRefState pageRef key) JNull
        else js_or (providedValue c) JNull)
  /\ (usesRecordField c = true -> w1 = w)
  /\ (usesRecordField c = false -> isUrlParameterSource c = false ->
        urlParamValue (this w1) = JNull
        /\ emitted (wiredPageRef pageRef) w = []).
Proof.
  intros c key w1. subst c key w1. unfold wiredPageRef.
  destruct (usesRecordField (config (this w))) eqn:U.
  { repeat split; try reflexivity; discriminate. }
  destruct (isUrlParameterSource (config (this w))) eqn:S; cbn [negb].
  - rewrite tryRender_config, tryRender_value.
    cbn [set_this set_urlParamValue this config].
    split; [reflexivity|]. split; [|split; discriminate].
    unfold qrValueResolved.
    cbn [config urlParamValue record set_urlParamValue]. rewrite U, S.
    destruct (String.eqb (effectiveUrlParamName (config (this w))) ""); simpl.
    + reflexivity.
    + unfold js_or. destruct (truthy (pageRefState _ _)) eqn:T; [rewrite T|]; reflexivity.
  - cbn [set_this set_urlParamValue this config urlParamValue].
    split; [reflexivity|]. split; [|split; [discriminate|]].
    + unfold qrValueResolved. cbn [config set_urlParamValue]. rewrite U, S. reflexivity.
    + intros _ _. split; [reflexivity|]. unfold emitted. rewrite U, S.
      cbn [negb set_this log]. apply drop_all.
Qed.

Lemma wiredPageRef_resolves_witness :
  let w := run [EvConnected; EvScriptSettled true; EvTemplate true; EvRendered]
               (newWorld (set_value_inputs (Some "URL Parameter") JUndefined providedConfig)) in
  qrValueResolved (this (wiredPageRef
     (Some {| state := Some {[ "qrv" := JStr "XYZ"; "other" := JStr "1" ]} |}) w)) = JStr "XYZ"
  /\ qrValueResolved (this (wiredPageRef (Some {| state := None |}) w)) = JNull.
Proof.
  intros w. split.
  - destruct (wiredPageRef_resolves
                (Some {| state := Some {[ "qrv" := JStr "XYZ"; "other" := JStr "1" ]} |}) w)
      as [_ [H _]].
    rewrite H. reflexivity.
  - destruct (wiredPageRef_resolves (Some {| state := None |}) w) as [_ [H _]].
    rewrite H. reflexivity.
Defined.

(** ** The subscribed fields *)

(** Outside record-field mode no field is subscribed.  In record-field
    mode the subscribed fields are exactly the qualified title field and
    the qualified value field, each when it qualifies: every field the
    value and title getters read from a snapshot has been subscribed, and
    no null entry is passed to the record data provider. *)
Theorem fields_cover_reads (c : Config) :
  (usesRecordField c = false -> fields c = [])
  /\ (usesRecordField c = true ->
        forall q, In q (fields c) <->
          getQualifiedFieldName c (titleFieldApiName c) = Some q
          \/ getQualifiedFieldName c (qrCodeValueFieldApiName c) = Some q)
  /\ List.length (fields c) <= 2.
Proof.
  unfold fields. destruct (usesRecordField c); simpl.
  - split; [discriminate|]. split.
    + intros _ q.
      destruct (getQualifiedFieldName c (titleFieldApiName c)) as [a|],
               (getQualifiedFieldName c (qrCodeValueFieldApiName c)) as [b|]; simpl;
        split; intros H;
        repeat match goal with
               | H : _ \/ _ |- _ => destruct H
               | H : Some _ = Some _ |- _ => injection H as H; subst
               | H : None = Some _ |- _ => discriminate H
               | H : False |- _ => destruct H
               end; subst; auto.
    + destruct (getQualifiedFieldName c (titleFieldApiName c)),
               (getQualifiedFieldName c (qrCodeValueFieldApiName c)); simpl; lia.
  - split; [reflexivity|]. split; [discriminate | lia].
Qed.

Lemma fields_cover_reads_witness :
  In "Account.AccountNumber" (fields accountConfig)
  /\ In "Account.Name" (fields accountConfig)
  /\ fields providedConfig = [].
Proof.
  destruct (fields_cover_reads accountConfig) as [_ [H _]].
  destruct (fields_cover_reads providedConfig) as [G _].
  split; [apply (H eq_refl); right; reflexivity|].
  split; [apply (H eq_refl); left; reflexivity | apply G; reflexivity].
Defined.

(** ** A delivered snapshot *)

(** A delivered snapshot replaces the held one wholesale and clears a
    stored error; in record-field mode the value resolved afterwards is
    read from the new snapshot alone, never from the previous one, and any
    create or update the handler issues carries that value as data. *)
Theorem wiredRecord_data (d : RecordSnapshot) (er : option JsError) (w : World) :
  let c := config (this w) in
  let w1 := wiredRecord (Some d) er w in
  record (this w1) = Some d /\ error (this w1) = None /\ config (this w1) = c
  /\ qrValueResolved (this w1) =
       (if usesRecordField c then
          match getQualifiedFieldName c (qrCodeValueFieldApiName c) with
          | Some q => getFieldValue d q
          | None => JNull
          end
        else qrValueResolved (this w))
  /\ forall e, In e (emitted (wiredRecord (Some d) er) w) ->
       match e with
       | Create _ o | Update _ o => data o = qrValueResolved (this w1)
       | _ => True
       end.
Proof.
  intros c w1. subst c w1. unfold wiredRecord.
  set (w0 := set_this (set_record (Some d) None (this w)) w).
  destruct (tryRender_writes w0) as [C [R [E [_ [_ [_ [_ [_ V]]]]]]]].
  rewrite R, E, C, V.
  split; [reflexivity|]. split; [reflexivity|]. split; [reflexivity|]. split.
  - unfold qrValueResolved, w0. cbn [this set_this config record set_record urlParamValue].
    destruct (usesRecordField (config (this w))); reflexivity.
  - intros e X.
    assert (Y : In e (emitted tryRenderOrUpdateQr w0)) by exact X.
    pose proof (emitted_render_data w0 e Y) as Z.
    destruct e; try exact I; rewrite Z; reflexivity.
Qed.

Definition staleRecord : RecordSnapshot :=
  {[ "Account.Name" := JStr "Old"; "Account.AccountNumber" := JStr "OLD-1" ]}.

Lemma wiredRecord_data_witness :
  let w := run [EvConnected; EvScriptSettled true; EvTemplate true; EvRendered;
                EvRecord (Some staleRecord) None; EvRecord None (Some "fetch failed")]
               (newWorld accountConfig) in
  qrValueResolved (this (wiredRecord (Some accountRecord) None w)) = JStr "CD451796"
  /\ error (this (wiredRecord (Some accountRecord) None w)) = None.
Proof.
  intros w.
  destruct (wiredRecord_data accountRecord None w) as [_ [E [_ [V _]]]].
  split; [rewrite V; reflexivity | exact E].
Defined.

(** ** Nothing is drawn before the first snapshot *)

(** An event that neither delivers a snapshot nor changes the configuration. *)
Definition keepsWaiting (e : Event) : bool :=
  match e with
  | EvRecord (Some _) _ | EvSetConfig _ => false
  | _ => true
  end.

Definition Waiting (c : Config) (w : World) : Prop :=
  config (this w) = c /\ record (this w) = None
  /\ renderCalls (log w) = 0 /\ qrCodeInstance (this w) = None.

Lemma Waiting_tryRender (c : Config) (w : World) :
  usesRecordField c = true -> Waiting c w -> tryRenderOrUpdateQr w = w.
Proof.
  intros U [C [R _]]. apply not_ready_noop. unfold isReadyToRender.
  rewrite C, U, R. destruct (negb (domReady (this w)) || negb (qrCodeLibLoaded (this w)));
    reflexivity.
Qed.

Lemma Waiting_frame (c : Config) (w : World) (t : Widget) :
  config t = config (this w) -> record t = record (this w) ->
  qrCodeInstance t = qrCodeInstance (this w) ->
  Waiting c w -> Waiting c (set_this t w).
Proof.
  intros E1 E2 E3 [A [B [C D]]]. unfold Waiting. cbn [set_this this log].
  rewrite E1, E2, E3. auto.
Qed.

Lemma Waiting_step (c : Config) (e : Event) (w : World) :
  usesRecordField c = true -> keepsWaiting e = true -> Waiting c w -> Waiting c (step e w).
Proof.
  intros U K H. pose proof H as [A [B [C D]]].
  destruct e as [|ok| |d er|p|c'|present]; cbn [step].
  - unfold connectedCallback. destruct (scriptLoadStarted (this w)); [exact H|].
    unfold Waiting. cbn [emit set_loadPending set_this set_scriptLoadStarted this log
                         config record qrCodeInstance].
    rewrite renderCalls_app, C. auto.
  - destruct (loadPending w); [|exact H]. destruct ok.
    + unfold scriptLoaded.
      match goal with |- Waiting c (tryRenderOrUpdateQr ?x) =>
        assert (H1 : Waiting c x) by exact H;
        rewrite (Waiting_tryRender c x U H1); exact H1
      end.
    + unfold scriptLoadFailed, Waiting. cbn [emit set_loadPending this log].
      rewrite renderCalls_app, C. auto.
  - unfold renderedCallback.
    match goal with |- Waiting c (tryRenderOrUpdateQr ?x) =>
      assert (H1 : Waiting c x)
        by (destruct (negb (domReady (this w))); [apply Waiting_frame; auto | exact H]);
      rewrite (Waiting_tryRender c x U H1); exact H1
    end.
  - unfold wiredRecord. destruct d as [d|]; [discriminate K|].
    destruct er as [er|]; [|exact H].
    unfold Waiting. cbn [emit set_this set_record this log config record qrCodeInstance].
    rewrite renderCalls_app, C. auto.
  - unfold wiredPageRef. rewrite A, U. exact H.
  - discriminate K.
  - destruct present; [destruct (qrDiv w)|]; exact H.
Qed.

(** In record-field mode, as long as no snapshot has been delivered and
    the configuration stays, whatever else happens (mount, script load,
    render passes, fetch errors, navigation), no create or update call is
    issued, no handle exists and there is no value. *)
Theorem no_render_before_snapshot (c : Config) (es : list Event) :
  usesRecordField c = true ->
  forallb keepsWaiting es = true ->
  let w := run es (newWorld c) in
  renderCalls (log w) = 0 /\ qrCodeInstance (this w) = None
  /\ record (this w) = None /\ hasQrValue (this w) = false.
Proof.
  intros U K w.
  assert (H : Waiting c w).
  { subst w. assert (H0 : Waiting c (newWorld c)) by (repeat split).
    revert K H0. generalize (newWorld c). induction es as [|e es IH]; intros w0 K H0.
    - exact H0.
    - simpl in K. apply andb_prop in K. destruct K as [K1 K2].
      simpl. apply IH; [exact K2 | apply Waiting_step; assumption]. }
  destruct H as [A [B [C D]]]. repeat split; try assumption.
  unfold hasQrValue, qrValueResolved. rewrite A, U, B. reflexivity.
Qed.

Lemma no_render_before_snapshot_witness :
  renderCalls (log (run [EvConnected; EvTemplate true; EvRendered; EvScriptSettled true;
                         EvRecord None (Some "fetch failed"); EvPageRef None; EvRendered]
                        (newWorld accountConfig))) = 0.
Proof.
  apply (no_render_before_snapshot accountConfig
           [EvConnected; EvTemplate true; EvRendered; EvScriptSettled true;
            EvRecord None (Some "fetch failed"); EvPageRef None; EvRendered]);
    reflexivity.
Defined.

(** ** Readiness signals only advance *)

Ltac flags :=
  cbn [emit set_loadPending set_this set_qrDiv set_scriptLoadStarted set_qrCodeLibLoaded
       set_domReady set_record set_urlParamValue set_config this domReady
       qrCodeLibLoaded scriptLoadStarted];
  auto.

Ltac flags_render :=
  match goal with |- context [tryRenderOrUpdateQr ?x] =>
    destruct (tryRender_writes x) as [_ [_ [_ [_ [L [D [S _]]]]]]]; rewrite L, D, S
  end; flags.

Lemma flags_step (e : Event) (w : World) :
  (domReady (this w) = true -> domReady (this (step e w)) = true)
  /\ (qrCodeLibLoaded (this w) = true -> qrCodeLibLoaded (this (step e w)) = true)
  /\ (scriptLoadStarted (this w) = true -> scriptLoadStarted (this (step e w)) = true).
Proof.
  destruct e as [|ok| |d er|p|c'|present]; cbn [step].
  - unfold connectedCallback. destruct (scriptLoadStarted (this w)) eqn:St; flags.
  - destruct (loadPending w); [|auto]. destruct ok.
    + unfold scriptLoaded. flags_render.
    + unfold scriptLoadFailed. flags.
  - unfold renderedCallback. flags_render.
    destruct (domReady (this w)) eqn:Dr; flags.
  - unfold wiredRecord. destruct d as [d|]; [flags_render | destruct er; flags].
  - unfold wiredPageRef. destruct (usesRecordField (config (this w))); [auto|].
    destruct (negb (isUrlParameterSource (config (this w)))); [flags | flags_render].
  - flags.
  - destruct present; [destruct (qrDiv w)|]; flags.
Qed.

(** Once the DOM is mounted, the script is loaded or the load is started,
    it stays so over every later event: no handler resets these flags (a
    fetch error withdraws only the snapshot). *)
Theorem readiness_flags_monotone (es : list Event) (w : World) :
  (domReady (this w) = true -> domReady (this (run es w)) = true)
  /\ (qrCodeLibLoaded (this w) = true -> qrCodeLibLoaded (this (run es w)) = true)
  /\ (scriptLoadStarted (this w) = true -> scriptLoadStarted (this (run es w)) = true).
Proof.
  revert w. induction es as [|e es IH]; intros w; simpl; [auto|].
  destruct (flags_step e w) as [A [B C]]. destruct (IH (step e w)) as [A' [B' C']].
  auto.
Qed.

Lemma readiness_flags_monotone_witness :
  qrCodeLibLoaded (this (run [EvRecord None (Some "fetch failed"); EvConnected;
                              EvSetConfig providedConfig; EvTemplate false]
                             recordWorld)) = true.
Proof.
  apply (proj1 (proj2 (readiness_flags_monotone
           [EvRecord None (Some "fetch failed"); EvConnected;
            EvSetConfig providedConfig; EvTemplate false] recordWorld))).
  reflexivity.
Defined.

(** ** When the hooks draw *)

Definition mounted (w : World) : bool :=
  match qrDiv w with Some _ => true | None => false end.

Lemma hasQrValue_fetched (t : Widget) :
  hasQrValue t = true -> usesRecordField (config t) = true -> record t <> None.
Proof.
  unfold hasQrValue, qrValueResolved. intros V U. rewrite U in V.
  destruct (record t); [discriminate | discriminate V].
Qed.

Lemma tryRender_count (w : World) :
  renderCalls (emitted tryRenderOrUpdateQr w)
  = if isReadyToRender (this w) && mounted w && hasQrValue (this w) then 1 else 0.
Proof.
  unfold emitted, mounted.
  destruct (tryRender_step w) as [R|R D|d R D V J|d h R D V J|d R D V J|d h R D V J];
    cbn [created cleared emit log set_qrDiv set_this];
    rewrite ?emitted_id, ?emitted_app, R, ?D, ?V; reflexivity.
Qed.

Lemma ready_with_value (t : Widget) :
  isReadyToRender t && hasQrValue t = domReady t && qrCodeLibLoaded t && hasQrValue t.
Proof.
  rewrite isReadyToRender_conj.
  destruct (hasQrValue t) eqn:V; [|rewrite !andb_false_r; reflexivity].
  rewrite !andb_true_r. destruct (usesRecordField (config t)) eqn:U;
    [|rewrite andb_true_r; reflexivity].
  unfold snapshotHeld. pose proof (hasQrValue_fetched t V U) as N.
  destruct (record t); [rewrite andb_true_r; reflexivity | contradiction].
Qed.

(** A render pass draws, with one create or update call, exactly when
    the script is loaded, the mount point is in the template and there is
    a value; the completion of the script load draws exactly when the DOM
    is mounted, the mount point is in the template and there is a value.
    In record-field mode a value implies that a snapshot is held. *)
Theorem hooks_draw_exactly_when (w : World) :
  renderCalls (emitted renderedCallback w)
    = (if qrCodeLibLoaded (this w) && mounted w && hasQrValue (this w) then 1 else 0)
  /\ renderCalls (emitted scriptLoaded w)
    = (if domReady (this w) && mounted w && hasQrValue (this w) then 1 else 0).
Proof.
  split.
  - set (w0 := if negb (domReady (this w)) then set_this (set_domReady true (this w)) w else w).
    assert (E : emitted renderedCallback w = emitted tryRenderOrUpdateQr w0).
    { unfold emitted, renderedCallback. fold w0. f_equal. f_equal.
      unfold w0. destruct (negb (domReady (this w))); reflexivity. }
    rewrite E, tryRender_count.
    rewrite <- andb_assoc, (andb_comm (mounted w0)), andb_assoc, ready_with_value.
    assert (F : domReady (this w0) = true /\ qrCodeLibLoaded (this w0) = qrCodeLibLoaded (this w)
                /\ hasQrValue (this w0) = hasQrValue (this w) /\ mounted w0 = mounted w).
    { unfold w0. destruct (domReady (this w)) eqn:Dr; simpl; auto. }
    destruct F as [F1 [F2 [F3 F4]]]. rewrite F1, F2, F3, F4. simpl.
    destruct (qrCodeLibLoaded (this w)), (hasQrValue (this w)), (mounted w); reflexivity.
  - set (w0 := set_this (set_qrCodeLibLoaded true (this w)) w).
    assert (E : emitted scriptLoaded w = emitted tryRenderOrUpdateQr w0) by reflexivity.
    rewrite E, tryRender_count.
    rewrite <- andb_assoc, (andb_comm (mounted w0)), andb_assoc, ready_with_value.
    change (domReady (this w0)) with (domReady (this w)).
    change (qrCodeLibLoaded (this w0)) with true.
    change (hasQrValue (this w0)) with (hasQrValue (this w)).
    change (mounted w0) with (mounted w).
    destruct (domReady (this w)), (hasQrValue (this w)), (mounted w); reflexivity.
Qed.

(** ** Style types are lowercase *)

Definition isUpper (c : ascii) : bool :=
  let n := nat_of_ascii c in ((65 <=? n)%nat && (n <=? 90)%nat)%bool.

Fixpoint hasUpper (s : string) : bool :=
  match s with
  | EmptyString => false
  | String c s' => isUpper c || hasUpper s'
  end.

Lemma lowerChar_not_upper (c : ascii) : isUpper (lowerChar c) = false.
Proof. destruct c as [[] [] [] [] [] [] [] []]; reflexivity. Qed.

Lemma toLowerCase_no_upper (s : string) : hasUpper (toLowerCase s) = false.
Proof.
  induction s as [|c s IH]; [reflexivity|].
  simpl. rewrite lowerChar_not_upper, IH. reflexivity.
Qed.

Lemma toLowerCase_length (s : string) : String.length (toLowerCase s) = String.length s.
Proof. induction s as [|c s IH]; [reflexivity|]. simpl. rewrite IH. reflexivity. Qed.

Definition lowercaseOrUnset (v : JsValue) : Prop :=
  v = JUndefined \/ exists s, v = JStr s /\ hasUpper s = false.

(** In the built options the dots type is always a string without an
    uppercase letter, [rounded] when the property is unset or empty; the
    two corner types are such a string or unset; and the corner squares
    and corner dots take the dots colour. *)
Theorem option_types_lowercase (c : Config) (d : JsValue) :
  let o := buildOptions c d in
  (exists s, type (dotsOptions o) = JStr s /\ hasUpper s = false
     /\ (if truthy_str (qrCodeDotsType c) then True else s = "rounded"))
  /\ lowercaseOrUnset (type (cornersSquareOptions o))
  /\ lowercaseOrUnset (type (cornersDotOptions o))
  /\ color (cornersSquareOptions o) = color (dotsOptions o)
  /\ color (cornersDotOptions o) = color (dotsOptions o).
Proof.
  assert (K : forall v, lowercaseOrUnset (cornerType v)).
  { intros v. rewrite cornerType_styleType. unfold styleType, lowercaseOrUnset.
    destruct v as [| |b|x|s]; auto.
    destruct (decide (s = "None")); [auto|]. destruct (decide (s = "")); [auto|].
    right. eexists. split; [reflexivity | apply toLowerCase_no_upper]. }
  cbn. split; [|repeat split; apply K].
  eexists. split; [reflexivity|]. split; [apply toLowerCase_no_upper|].
  destruct (qrCodeDotsType c) as [s|]; simpl; [|reflexivity].
  destruct (String.eqb s ""); simpl; [reflexivity | exact I].
Qed.

(** ** Texts on display *)

(** The title is non-empty exactly when title display is on, and the
    no-value message is never empty: both fall back to their literals.
    Outside record-field mode a value that is not there is null. *)
Theorem shown_texts_not_blank (t : Widget) :
  truthy (title t) = truthy (showTitle (config t))
  /\ truthy (noValueMessage (config t)) = true
  /\ (usesRecordField (config t) = true \/ hasQrValue t = true \/ qrValueResolved t = JNull).
Proof.
  split; [|split].
  - rewrite title_eq_by_snapshot. unfold title_by_snapshot, staticTitle.
    destruct (truthy (showTitle (config t))); [|reflexivity].
    destruct (truthy (recordTitle t)) eqn:R; [exact R|].
    destruct (truthy (titleStaticValue (config t))) eqn:S; [exact S | reflexivity].
  - unfold noValueMessage, js_or.
    destruct (truthy (noQrValueMessage (config t))) eqn:M; [exact M | reflexivity].
  - unfold hasQrValue, qrValueResolved, js_or.
    destruct (usesRecordField (config t)); [auto|]. right.
    destruct (isUrlParameterSource (config t)).
    + destruct (truthy (urlParamValue t)) eqn:V; auto.
    + destruct (truthy (providedValue (config t))) eqn:V; auto.
Qed.

(** ** The static-value iteration against the current one *)

(** With a source other than the URL parameter, the step of the
    static-value iteration does what the current step does whenever there
    is a value, and does nothing when there is none: the two differ only
    in that the current one then clears the rendered artifact. *)
Theorem StaticValue_step (w : World) :
  isUrlParameterSource (config (this w)) = false ->
  StaticValue.qrValueResolved (this w) = qrValueResolved (this w)
  /\ StaticValue.tryRenderOrUpdateQr w
     = (if hasQrValue (this w) then tryRenderOrUpdateQr w else w).
Proof.
  intros S.
  assert (V : StaticValue.qrValueResolved (this w) = qrValueResolved (this w)).
  { unfold StaticValue.qrValueResolved, qrValueResolved, StaticValue.qrCodeStaticValue.
    rewrite S. destruct (usesRecordField (config (this w))); reflexivity. }
  split; [exact V|].
  unfold StaticValue.tryRenderOrUpdateQr. rewrite V.
  destruct (hasQrValue (this w)) eqn:H; unfold hasQrValue in H.
  - assert (R : StaticValue.isReadyToRender (this w) = isReadyToRender (this w)).
    { unfold StaticValue.isReadyToRender, isReadyToRender, StaticValue.qrCodeStaticValue.
      destruct (negb (domReady (this w)) || negb (qrCodeLibLoaded (this w))); [reflexivity|].
      destruct (usesRecordField (config (this w))) eqn:U; simpl; [reflexivity|].
      unfold qrValueResolved in H. rewrite U, S in H. unfold js_or in H.
      destruct (truthy (providedValue (config (this w)))); [reflexivity | discriminate H]. }
    rewrite R, H. unfold tryRenderOrUpdateQr. rewrite H.
    destruct (isReadyToRender (this w)); reflexivity.
  - rewrite H. destruct (negb (StaticValue.isReadyToRender (this w))); reflexivity.
Qed.

Lemma StaticValue_step_witness :
  let w := run renderedThenEmptied (newWorld providedConfig) in
  StaticValue.tryRenderOrUpdateQr w = w
  /\ qrCodeInstance (this w) = Some 0
  /\ qrCodeInstance (this (tryRenderOrUpdateQr w)) = None.
Proof.
  intros w. split; [|split; reflexivity].
  destruct (StaticValue_step w eq_refl) as [_ H]. rewrite H. reflexivity.
Defined.

(** ** The original component *)

(** The original qualifier returns null only when the object type is
    absent.  A blank field name is qualified as [Id]; a field name of white
    space only is qualified to the object type and a dot, with no field;
    on any other field name the result is that of the current qualifier. *)
Theorem Original_qualifier_edges (c : Config) (fieldName : option string) :
  (Original.getQualifiedFieldName c fieldName = None <-> truthy_str (objectApiName c) = false)
  /\ (forall o, objectApiName c = Some o -> o <> "" ->
        Original.getQualifiedFieldName c fieldName
        = Some (o ++ "." ++ (if truthy_str fieldName then trim (default "" fieldName) else "Id")))
  /\ (trim (default "" fieldName) <> "" ->
        Original.getQualifiedFieldName c fieldName = getQualifiedFieldName c fieldName).
Proof.
  assert (E : trim (str_or fieldName "Id")
              = if truthy_str fieldName then trim (default "" fieldName) else "Id").
  { destruct fieldName as [f|]; simpl; [|reflexivity].
    destruct (String.eqb_spec f "") as [->|]; reflexivity. }
  unfold Original.getQualifiedFieldName. rewrite E. split; [|split].
  - destruct (objectApiName c) as [o|]; simpl; [|split; reflexivity].
    destruct (String.eqb o ""); simpl; split; try reflexivity; discriminate.
  - intros o -> O. destruct (String.eqb_spec o ""); [contradiction | reflexivity].
  - intros T. unfold getQualifiedFieldName. rewrite str_or_empty.
    destruct (String.eqb_spec (trim (default "" fieldName)) ""); [contradiction|].
    assert (F : truthy_str fieldName = true).
    { clear E n. destruct fieldName as [f|]; [|exfalso; apply T; reflexivity].
      simpl. destruct (String.eqb_spec f "") as [Ef|]; [|reflexivity].
      exfalso. apply T. rewrite Ef. reflexivity. }
    rewrite F. reflexivity.
Qed.

Lemma Original_qualifier_edges_witness :
  Original.getQualifiedFieldName accountConfig None = Some "Account.Id"
  /\ Original.getQualifiedFieldName accountConfig (Some "   ") = Some "Account."
  /\ Original.getQualifiedFieldName accountConfig (Some " Name")
     = getQualifiedFieldName accountConfig (Some " Name").
Proof.
  split; [|split].
  - apply (proj1 (proj2 (Original_qualifier_edges accountConfig None)) "Account");
      [reflexivity | discriminate].
  - apply (proj1 (proj2 (Original_qualifier_edges accountConfig (Some "   "))) "Account");
      [reflexivity | discriminate].
  - apply (proj2 (proj2 (Original_qualifier_edges accountConfig (Some " Name")))).
    discriminate.
Defined.

Definition isString (v : JsValue) : bool :=
  match v with JStr _ => true | _ => false end.

Lemma Original_cornerType_throws (v : JsValue) :
  Original.cornerType v = None <-> isString v = false.
Proof.
  unfold Original.cornerType, Original.callToLowerCase, strictEqStr.
  destruct v as [| |b|x|s]; simpl; split; try reflexivity; try discriminate.
  destruct (String.eqb s "None"); discriminate.
Qed.

Lemma Original_options_built (c : Config) (o : Options) :
  Original.generateQRCode_options c = Some o ->
  data o = JStr (str_or (recordId c) "No Data")
  /\ truthy (data o) = true
  /\ errorCorrectionLevel (qrOptions o) = "H"
  /\ Some (type (cornersSquareOptions o)) = Original.cornerType (cornersSquareStyle c)
  /\ Some (type (cornersDotOptions o)) = Original.cornerType (cornersDotStyle c)
  /\ image o = image (buildOptions c (data o))
  /\ imageOptions o = imageOptions (buildOptions c (data o)).
Proof.
  unfold Original.generateQRCode_options.
  destruct (qrCodeDotsType c) as [dt|]; [|discriminate].
  destruct (Original.cornerType (cornersSquareStyle c)) as [sq|]; [|discriminate].
  destruct (Original.cornerType (cornersDotStyle c)) as [dot|]; [|discriminate].
  intros [= <-]. cbn. repeat split.
  destruct (recordId c) as [r|]; simpl; [|reflexivity].
  destruct (String.eqb_spec r "") as [->|N]; [reflexivity|].
  simpl. destruct (String.eqb_spec r ""); [contradiction | reflexivity].
Qed.

(** Building the original options throws exactly when the dots type is
    unset or a corner style is not a string.  When they are built, the data
    is the record id, or the literal [No Data] without one, whatever the
    snapshot holds; the corner types are unset for the sentinel and the
    lowercased style otherwise; and the logo part is that of the current
    builder. *)
Theorem Original_options (c : Config) :
  (Original.generateQRCode_options c = None <->
     qrCodeDotsType c = None \/ isString (cornersSquareStyle c) = false
     \/ isString (cornersDotStyle c) = false)
  /\ forall o, Original.generateQRCode_options c = Some o ->
       data o = JStr (str_or (recordId c) "No Data")
       /\ truthy (data o) = true
       /\ errorCorrectionLevel (qrOptions o) = "H"
       /\ Some (type (cornersSquareOptions o)) = Original.cornerType (cornersSquareStyle c)
       /\ Some (type (cornersDotOptions o)) = Original.cornerType (cornersDotStyle c)
       /\ image o = image (buildOptions c (data o))
       /\ imageOptions o = imageOptions (buildOptions c (data o)).
Proof.
  split; [|apply Original_options_built].
  unfold Original.generateQRCode_options.
  destruct (qrCodeDotsType c) as [dt|]; [|split; auto].
  destruct (Original.cornerType (cornersSquareStyle c)) as [sq|] eqn:A.
  - destruct (Original.cornerType (cornersDotStyle c)) as [dot|] eqn:B.
    + split; [discriminate|]. intros [X|[X|X]]; [discriminate| |].
      * apply Original_cornerType_throws in X. congruence.
      * apply Original_cornerType_throws in X. congruence.
    + split; [|reflexivity]. intros _. right. right. apply Original_cornerType_throws, B.
  - split; [|reflexivity]. intros _. right. left. apply Original_cornerType_throws, A.
Qed.

Lemma Original_options_witness :
  exists o, Original.generateQRCode_options accountConfig = Some o
    /\ data o = JStr "001xx000003DGb2AAG"
    /\ type (cornersDotOptions o) = JUndefined.
Proof.
  eexists. split; [reflexivity|].
  destruct (proj2 (Original_options accountConfig) _ eq_refl) as [D _].
  split; [exact D | reflexivity].
Defined.

(** The hooks of the original component, over the same world.  There
    [qrCodeLibLoaded] is set when the load is started. *)
Module OriginalHooks.

(** [generateQRCode]; [None] when building the options throws. *)
Definition generateQRCode (w : World) : option World :=
  match qrDiv w with
  | None => Some (emit [ConsoleError "QR Code container not found."] w)
  | Some children =>
      match Original.generateQRCode_options (config (this w)) with
      | None => None
      | Some options =>
          let h := nextInstance w in
          Some {| this := set_qrCodeInstance (Some h) (this w);
                  qrDiv := Some (children ++ [h])%list;
                  nextInstance := S h;
                  loadPending := loadPending w;
                  log := log w ++ [Create h options; Append h] |}
      end
  end.

Definition renderedCallback (w : World) : World :=
  if qrCodeLibLoaded (this w) then w
  else
    emit [LoadScript]
      (set_loadPending true (set_this (set_qrCodeLibLoaded true (this w)) w)).

(** The [then] callback of the load, with the [catch] that follows it: an
    exception of [generateQRCode] is caught and logged as a load error. *)
Definition scriptLoaded (w : World) : World :=
  match generateQRCode w with
  | Some w1 => w1
  | None => emit [ConsoleError "Error loading qr-code-styling:"] w
  end.

Definition scriptLoadFailed (w : World) : World :=
  emit [ConsoleError "Error loading qr-code-styling:"] w.

Definition wiredRecord (data : option RecordSnapshot) (err : option JsError)
    (w : World) : World :=
  match data with
  | Some d => set_this (set_record (Some d) None (this w)) w
  | None =>
      match err with
      | Some e => emit [ConsoleError e] (set_this (set_record None (Some e) (this w)) w)
      | None => w
      end
  end.

(** The original has no [connectedCallback] and no page-reference wire. *)
Definition step (e : Event) (w : World) : World :=
  match e with
  | EvConnected => w
  | EvScriptSettled ok =>
      if loadPending w then
        let w1 := set_loadPending false w in
        if ok then scriptLoaded w1 else scriptLoadFailed w1
      else w
  | EvRendered => renderedCallback w
  | EvRecord d e => wiredRecord d e w
  | EvPageRef _ => w
  | EvSetConfig c => set_this (set_config c (this w)) w
  | EvTemplate present =>
      if present then
        match qrDiv w with Some _ => w | None => set_qrDiv (Some []) w end
      else set_qrDiv None w
  end.

Definition run (es : list Event) (w : World) : World :=
  fold_left (fun w e => step e w) es w.

End OriginalHooks.








(** A missing corner style surfaces as a load error: the script loads,
    building the options throws, the [catch] logs, nothing is drawn. *)
Example Original_style_error_logged :
  log (OriginalHooks.run [EvTemplate true; EvRendered; EvScriptSettled true]
         (newWorld defaultConfig))
  = [LoadScript; ConsoleError "Error loading qr-code-styling:"].
Proof. reflexivity. Qed.

(** ** A mount point that was replaced *)

Definition isAppendCall (e : Effect) : bool :=
  match e with Append _ => true | _ => false end.

(** While a handle is held the step never appends: it updates the
    instance or clears, so a mount point that is empty (the element was
    taken out of the template and put back) stays empty although a value
    is drawn on the instance. *)
Theorem held_handle_never_appends (w : World) (h : nat) :
  qrCodeInstance (this w) = Some h ->
  List.filter isAppendCall (emitted tryRenderOrUpdateQr w) = []
  /\ List.filter isCreate (emitted tryRenderOrUpdateQr w) = []
  /\ (qrDiv w = Some [] -> qrDiv (tryRenderOrUpdateQr w) = Some []).
Proof.
  intros J. unfold emitted.
  destruct (tryRender_step w) as [R|R D|d R D V K|d h' R D V K|d R D V K|d h' R D V K];
    cbn [created cleared emit log set_qrDiv set_this qrDiv];
    rewrite ?emitted_id, ?emitted_app; try congruence; repeat split; auto.
Qed.

Lemma held_handle_never_appends_witness :
  let w := run [EvConnected; EvScriptSettled true; EvTemplate true; EvRendered;
                EvTemplate false; EvTemplate true]
               (newWorld providedConfig) in
  qrCodeInstance (this w) = Some 0
  /\ renderCalls (emitted tryRenderOrUpdateQr w) = 1
  /\ qrDiv (tryRenderOrUpdateQr w) = Some [].
Proof.
  intros w. split; [reflexivity|]. split; [reflexivity|].
  apply (proj2 (proj2 (held_handle_never_appends w 0 eq_refl))). reflexivity.
Defined.
